(** * The explicit-path backend of libinput (src/path-seat.c)

    A shallow embedding of the seat registry, the path registry and the
    device lifecycle of [path-seat.c].  The C heap is modelled by explicit
    addresses: every linked object (seat, device, path record, duplicated
    string) carries the address it was allocated at, and the intrusive
    lists of the source are Rocq lists in link order (head first).

    State is threaded explicitly.  The outside world is reached through
    two oracles, shared by the whole development:
    - [probe], what [evdev_device_create] makes of a device node, and
    - [oom], whether a plain [strdup] runs out of memory.
    Both are indexed by a call counter kept in the context, so that any
    sequence of outcomes can be described. *)

From Stdlib Require Import String Ascii List ZArith Lia Bool Arith PeanoNat.
Import ListNotations.

Local Open Scope string_scope.
Local Open Scope Z_scope.
Local Open Scope list_scope.

(** ** Data model *)

Definition ptr := nat.

(** A heap-allocated C string: where it lives and what it holds.  Two
    [char *] are equal in C when the addresses are. *)
Record cstr := mk_cstr { c_ptr : ptr; c_str : string }.

(** [struct path_device]: one record of the path registry. *)
Record path_device := mk_path_device {
  pd_ptr : ptr;
  devnode : cstr;
  sysname : string
}.

(** [struct evdev_device], as far as this file looks at it: its own
    address, [devnode], and [base.seat], the back pointer to its seat. *)
Record evdev_device := mk_evdev_device {
  ev_ptr : ptr;
  ev_devnode : cstr;
  ev_sysname : string;
  ev_seat : ptr
}.

(** [struct libinput_seat] (the base of [struct path_seat]). *)
Record libinput_seat := mk_seat {
  seat_ptr : ptr;
  physical_name : string;
  logical_name : string;
  refcount : Z;
  devices_list : list evdev_device
}.

(** A logged message: its priority, its format string as the source
    spells it, and the strings it is applied to. *)
Inductive log_priority := LOG_INFO | LOG_ERROR | LOG_BUG_CLIENT.

Record log_entry := mk_log {
  log_prio : log_priority;
  log_format : string;
  log_args : list string
}.

(** [struct path_input]: the context of the path backend.  [seat_list] is
    [base.seat_list]; [next_ptr] is the allocator's next free address;
    [alloc_clock] and [probe_clock] count the calls made to the two
    oracles; [log] collects what went to the log handler. *)
Record path_input := mk_path_input {
  seat_list : list libinput_seat;
  path_list : list path_device;
  next_ptr : ptr;
  alloc_clock : nat;
  probe_clock : nat;
  log : list log_entry
}.

(** A [struct libinput *] handed to the exported entry points: a context
    whose [interface_backend] is this file's table, and which therefore is
    a [struct path_input], or a context of some other backend. *)
Inductive libinput :=
| PathInput (input : path_input)
| OtherBackend (other_log : list log_entry).

(** What the adapter makes of a device node: not an input device it
    handles, a failure, or a device.  [keeps_own_copy] tells whether the
    device stores a duplicate of the devnode string or the very pointer
    it was given. *)
Inductive probe_result :=
| PROBE_UNHANDLED
| PROBE_FAILED
| PROBE_OK (keeps_own_copy : bool).

(** The three-way result of [evdev_device_create]. *)
Inductive evdev_ret :=
| EVDEV_UNHANDLED_DEVICE
| EVDEV_NULL
| EVDEV_DEVICE (device : evdev_device).

Definition default_seat : string := "seat0".
Definition default_seat_name : string := "default".

(** ** Field updates *)

Definition set_seat_list (st : path_input) (l : list libinput_seat) : path_input :=
  mk_path_input l (path_list st) (next_ptr st) (alloc_clock st) (probe_clock st) (log st).

Definition set_path_list (st : path_input) (l : list path_device) : path_input :=
  mk_path_input (seat_list st) l (next_ptr st) (alloc_clock st) (probe_clock st) (log st).

Definition set_refcount (s : libinput_seat) (r : Z) : libinput_seat :=
  mk_seat (seat_ptr s) (physical_name s) (logical_name s) r (devices_list s).

Definition set_devices (s : libinput_seat) (l : list evdev_device) : libinput_seat :=
  mk_seat (seat_ptr s) (physical_name s) (logical_name s) (refcount s) l.

(** [zalloc] and [safe_strdup] abort the process rather than fail, so in
    the model an allocation always yields the next free address.  No
    address is handed out twice: two pointers are equal here only when
    they point at the same object.  The reuse of a freed address by the
    heap, by which a pointer kept past a [free] can come to equal a later
    allocation, is outside this model. *)
Definition alloc (st : path_input) : ptr * path_input :=
  (next_ptr st,
   mk_path_input (seat_list st) (path_list st) (S (next_ptr st))
                 (alloc_clock st) (probe_clock st) (log st)).

Definition safe_strdup (s : string) (st : path_input) : cstr * path_input :=
  let (p, st1) := alloc st in (mk_cstr p s, st1).

Definition tick_alloc (st : path_input) : path_input :=
  mk_path_input (seat_list st) (path_list st) (next_ptr st)
                (S (alloc_clock st)) (probe_clock st) (log st).

Definition tick_probe (st : path_input) : path_input :=
  mk_path_input (seat_list st) (path_list st) (next_ptr st)
                (alloc_clock st) (S (probe_clock st)) (log st).

Definition log_msg (p : log_priority) (fmt : string) (args : list string)
    (st : path_input) : path_input :=
  mk_path_input (seat_list st) (path_list st) (next_ptr st)
                (alloc_clock st) (probe_clock st)
                (log st ++ [mk_log p fmt args]).

(** ** Intrusive lists, addressed by node *)

Fixpoint seat_find (p : ptr) (l : list libinput_seat) : option libinput_seat :=
  match l with
  | [] => None
  | s :: l' => if Nat.eqb (seat_ptr s) p then Some s else seat_find p l'
  end.

Fixpoint seat_update (p : ptr) (f : libinput_seat -> libinput_seat)
    (l : list libinput_seat) : list libinput_seat :=
  match l with
  | [] => []
  | s :: l' => if Nat.eqb (seat_ptr s) p then f s :: l' else s :: seat_update p f l'
  end.

(** [list_remove(&seat->link)] *)
Fixpoint seat_unlink (p : ptr) (l : list libinput_seat) : list libinput_seat :=
  match l with
  | [] => []
  | s :: l' => if Nat.eqb (seat_ptr s) p then l' else s :: seat_unlink p l'
  end.

(** [list_remove(&device->base.link)] *)
Fixpoint device_unlink (p : ptr) (l : list evdev_device) : list evdev_device :=
  match l with
  | [] => []
  | d :: l' => if Nat.eqb (ev_ptr d) p then l' else d :: device_unlink p l'
  end.

(** [list_remove(&dev->link)] on the path registry. *)
Fixpoint path_unlink (p : ptr) (l : list path_device) : list path_device :=
  match l with
  | [] => []
  | r :: l' => if Nat.eqb (pd_ptr r) p then l' else r :: path_unlink p l'
  end.

(** ** Seats: reference counting (libinput.c, outside this file) *)

(** Modelled from the spec: [libinput_seat_ref], which is in libinput.c;
    it increments the seat's reference count. *)
Definition libinput_seat_ref (p : ptr) (st : path_input) : path_input :=
  set_seat_list st
    (seat_update p (fun s => set_refcount s (refcount s + 1)) (seat_list st)).

(** Modelled from the spec: [libinput_seat_unref], which is in libinput.c;
    it decrements the count, and a count reaching 0 destroys the seat:
    the seat is unlinked from the registry and released. *)
Definition libinput_seat_unref (p : ptr) (st : path_input) : path_input :=
  match seat_find p (seat_list st) with
  | None => st
  | Some s =>
      if Z.eqb (refcount s - 1) 0
      then set_seat_list st (seat_unlink p (seat_list st))
      else set_seat_list st
             (seat_update p (fun s => set_refcount s (refcount s - 1)) (seat_list st))
  end.

(** Modelled from the spec: [libinput_seat_init], which is in libinput.c;
    the new seat starts with one reference (the caller's), no device, and
    is linked at the head of the context's seat list. *)
Definition libinput_seat_init (p : ptr) (physical logical : string)
    (st : path_input) : path_input :=
  set_seat_list st (mk_seat p physical logical 1 [] :: seat_list st).

(** [path_seat_create] *)
Definition path_seat_create (seat_name seat_logical_name : string)
    (st : path_input) : ptr * path_input :=
  let (p, st1) := alloc st in
  (p, libinput_seat_init p seat_name seat_logical_name st1).

(** [path_seat_get_named]: the first seat with both names equal. *)
Fixpoint seat_get_named (l : list libinput_seat)
    (seat_name_physical seat_name_logical : string) : option libinput_seat :=
  match l with
  | [] => None
  | seat :: l' =>
      if String.eqb (physical_name seat) seat_name_physical &&
         String.eqb (logical_name seat) seat_name_logical
      then Some seat
      else seat_get_named l' seat_name_physical seat_name_logical
  end.

Definition path_seat_get_named (input : path_input)
    (seat_name_physical seat_name_logical : string) : option libinput_seat :=
  seat_get_named (seat_list input) seat_name_physical seat_name_logical.

(** ** Devices (evdev.c, outside this file) *)

(** Modelled from the spec: [evdev_device_remove], which is in evdev.c;
    it takes the device out of its seat's device list and releases the
    device, which gives up the seat reference the device held. *)
Definition evdev_device_remove (device : evdev_device) (st : path_input) : path_input :=
  let st1 :=
    set_seat_list st
      (seat_update (ev_seat device)
         (fun s => set_devices s (device_unlink (ev_ptr device) (devices_list s)))
         (seat_list st)) in
  libinput_seat_unref (ev_seat device) st1.

(** [path_disable_device]: look for [device] in its seat's list (by
    address) and remove it when it is there. *)
Fixpoint path_disable_scan (devs : list evdev_device) (device : evdev_device)
    (st : path_input) : path_input :=
  match devs with
  | [] => st
  | dev :: next =>
      if Nat.eqb (ev_ptr dev) (ev_ptr device)
      then evdev_device_remove device st
      else path_disable_scan next device st
  end.

Definition seat_devices (p : ptr) (st : path_input) : list evdev_device :=
  match seat_find p (seat_list st) with
  | Some s => devices_list s
  | None => []
  end.

Definition path_disable_device (st : path_input) (device : evdev_device) : path_input :=
  path_disable_scan (seat_devices (ev_seat device) st) device st.

(** [path_input_disable], the suspend operation.  Both loops are
    [list_for_each_safe]: the successor is read before the body runs and
    the body unlinks nothing but the current node, so each loop visits
    the nodes that were linked when it started. *)
Definition path_input_disable_seat (st : path_input) (seat : libinput_seat) : path_input :=
  let st1 := libinput_seat_ref (seat_ptr seat) st in
  let st2 := fold_left path_disable_device (seat_devices (seat_ptr seat) st1) st1 in
  libinput_seat_unref (seat_ptr seat) st2.

Definition path_input_disable (st : path_input) : path_input :=
  fold_left path_input_disable_seat (seat_list st) st.

(** [strrchr(s, c)] for a character [c] other than NUL: the suffix of [s]
    that starts at the last [c], if there is one. *)
Fixpoint strrchr (s : string) (c : ascii) : option string :=
  match s with
  | EmptyString => None
  | String a s' =>
      match strrchr s' c with
      | Some r => Some r
      | None => if Ascii.eqb a c then Some s else None
      end
  end.

(** [++p] on a [char *] that points at a character. *)
Definition next_char (s : string) : string :=
  match s with
  | EmptyString => EmptyString
  | String _ s' => s'
  end.

(** Lines 219-223 of [path_create_device]: the short name of a devnode. *)
Definition sysname_of (devnode : string) : string :=
  match strrchr devnode "/"%char with
  | Some s => next_char s
  | None => ""
  end.

(** The scan of [libinput_path_remove_device] (lines 313-320): unlink the
    first record whose [devnode] pointer is [p], then stop. *)
Fixpoint path_remove_scan (l : list path_device) (p : ptr) : list path_device :=
  match l with
  | [] => []
  | dev :: next =>
      if Nat.eqb (c_ptr (devnode dev)) p then next
      else dev :: path_remove_scan next p
  end.

Definition initial_context : path_input := mk_path_input [] [] 0%nat 0%nat 0%nat [].

(** ** The operations of path-seat.c *)

Section PathBackend.

(** [probe n devnode sysname]: what the [n]-th call of
    [evdev_device_create] finds at [devnode]. *)
Variable probe : nat -> string -> string -> probe_result.

(** [oom n]: the [n]-th plain [strdup] returns NULL. *)
Variable oom : nat -> bool.

Definition strdup (s : string) (st : path_input) : option string * path_input :=
  (if oom (alloc_clock st) then None else Some s, tick_alloc st).

(** Modelled from the spec: [evdev_device_create], which is in evdev.c.
    The adapter either reports the node as unhandled, fails, or creates
    a device on the seat: the device takes a reference on the seat and
    is appended to the seat's device list. *)
Definition evdev_device_create (seat : ptr) (devnode : cstr) (sysname : string)
    (st : path_input) : evdev_ret * path_input :=
  let st0 := tick_probe st in
  match probe (probe_clock st) (c_str devnode) sysname with
  | PROBE_UNHANDLED => (EVDEV_UNHANDLED_DEVICE, st0)
  | PROBE_FAILED => (EVDEV_NULL, st0)
  | PROBE_OK own =>
      let (p, st1) := alloc st0 in
      let (dn, st2) :=
        if own then safe_strdup (c_str devnode) st1 else (devnode, st1) in
      let device := mk_evdev_device p dn sysname seat in
      let st3 := libinput_seat_ref seat st2 in
      (EVDEV_DEVICE device,
       set_seat_list st3
         (seat_update seat
            (fun s => set_devices s (devices_list s ++ [device]))
            (seat_list st3)))
  end.

(** Lines 118-126 of [path_device_enable]: the logical seat name is the
    override ([safe_strdup]) or the default ([strdup], which may fail). *)
Definition resolve_logical_name (seat_logical_name_override : option string)
    (st : path_input) : option string * path_input :=
  match seat_logical_name_override with
  | Some o => (Some o, st)
  | None => strdup default_seat_name st
  end.

(** [path_device_enable].  [path_seat_create] cannot return NULL
    ([zalloc] aborts), so the branch of lines 142-148 has no
    counterpart.  [evdev_read_calibration_prop] and the reset of
    [output_name] touch fields of the device that are not modelled.  The
    two name strings are freed before the function returns and no pointer
    to them is kept, so they are plain strings here and take no address. *)
Definition path_device_enable (input : path_input) (dev : path_device)
    (seat_logical_name_override : option string)
    : option evdev_device * path_input :=
  let seat_name := default_seat in
  let (seat_logical_name, st1) :=
    resolve_logical_name seat_logical_name_override input in
  match seat_logical_name with
  | None =>
      (None,
       log_msg LOG_ERROR "%s: failed to create seat name for device '%s'.\n"
               [sysname dev; c_str (devnode dev)] st1)
  | Some seat_logical_name =>
      let (seat, st2) :=
        match path_seat_get_named st1 seat_name seat_logical_name with
        | Some s => (seat_ptr s, libinput_seat_ref (seat_ptr s) st1)
        | None => path_seat_create seat_name seat_logical_name st1
        end in
      let (device, st3) :=
        evdev_device_create seat (devnode dev) (sysname dev) st2 in
      let st4 := libinput_seat_unref seat st3 in
      match device with
      | EVDEV_UNHANDLED_DEVICE =>
          (None,
           log_msg LOG_INFO "%-7s - not using input device '%s'.\n"
                   [sysname dev; c_str (devnode dev)] st4)
      | EVDEV_NULL =>
          (None,
           log_msg LOG_INFO "%-7s - failed to create input device '%s'.\n"
                   [sysname dev; c_str (devnode dev)] st4)
      | EVDEV_DEVICE d => (Some d, st4)
      end
  end.

(** [path_input_enable], the resume operation.  The loop is a plain
    [list_for_each] over [path_list]; its body never changes
    [path_list] (see [path_device_enable_path_list]), so it visits the
    records registered on entry, head first. *)
Fixpoint path_input_enable_loop (devs : list path_device) (input : path_input)
    : Z * path_input :=
  match devs with
  | [] => (0, input)
  | dev :: next =>
      match path_device_enable input dev None with
      | (None, st1) => (-1, path_input_disable st1)
      | (Some _, st1) => path_input_enable_loop next st1
      end
  end.

Definition path_input_enable (input : path_input) : Z * path_input :=
  path_input_enable_loop (path_list input) input.

(** [path_input_destroy] *)
Definition path_input_destroy (input : path_input) : path_input :=
  set_path_list input [].

(** The record built by lines 217-223 of [path_create_device].  In the
    source [sysname] is a pointer into the caller's [devnode] argument
    (line 219), not into the record's own copy; the model holds what it
    points at when the record is built.  What becomes of that buffer
    after the call (a client may change it, [path_device_change_seat]
    frees it at line 252) is outside this model. *)
Definition path_device_new (devnode : string) (st : path_input)
    : path_device * path_input :=
  let (p, st1) := alloc st in
  let (dn, st2) := safe_strdup devnode st1 in
  (mk_path_device p dn (sysname_of devnode), st2).

(** [path_create_device]; [list_insert] links the record at the head. *)
Definition path_create_device (input : path_input) (devnode : string)
    (seat_name : option string) : option evdev_device * path_input :=
  let (dev, st1) := path_device_new devnode input in
  let st2 := set_path_list st1 (dev :: path_list st1) in
  let (device, st3) := path_device_enable st2 dev seat_name in
  match device with
  | None => (None, set_path_list st3 (path_unlink (pd_ptr dev) (path_list st3)))
  | Some d => (Some d, st3)
  end.

(** The context in which [path_create_device] calls
    [path_device_enable]: the new record is the head of the registry. *)
Definition with_new_record (path : string) (st : path_input) : path_input :=
  set_path_list (snd (path_device_new path st))
                (fst (path_device_new path st) :: path_list st).

(** [libinput_path_remove_device] *)
Definition libinput_path_remove_device (li : libinput) (device : evdev_device)
    : libinput :=
  match li with
  | OtherBackend lg =>
      OtherBackend (lg ++ [mk_log LOG_BUG_CLIENT "Mismatching backends.\n" []])
  | PathInput input =>
      let st1 :=
        set_path_list input
          (path_remove_scan (path_list input) (c_ptr (ev_devnode device))) in
      let seat := ev_seat device in
      let st2 := libinput_seat_ref seat st1 in
      let st3 := path_disable_device st2 device in
      PathInput (libinput_seat_unref seat st3)
  end.

(** [libinput_path_add_device] *)
Definition libinput_path_add_device (li : libinput) (path : string)
    : option evdev_device * libinput :=
  match li with
  | OtherBackend lg =>
      (None, OtherBackend (lg ++ [mk_log LOG_BUG_CLIENT "Mismatching backends.\n" []]))
  | PathInput input =>
      let (device, st) := path_create_device input path None in
      (device, PathInput st)
  end.

(** [path_device_change_seat].  It is reached through the backend table
    of a path context only, so the backend test inside
    [libinput_path_remove_device] passes. *)
Definition path_device_change_seat (input : path_input) (device : evdev_device)
    (seat_name : string) : Z * path_input :=
  match strdup (c_str (ev_devnode device)) input with
  | (None, st1) => (-1, st1)
  | (Some devnode, st1) =>
      match libinput_path_remove_device (PathInput st1) device with
      | PathInput st2 =>
          let (d, st3) := path_create_device st2 devnode (Some seat_name) in
          (match d with None => -1 | Some _ => 0 end, st3)
      | OtherBackend _ => (-1, st1)
      end
  end.

(** [libinput_path_create_context]: no context without an interface, and
    none when [libinput_init] (libinput.c) reports a failure. *)
Definition libinput_path_create_context (has_interface init_ok : bool)
    : option libinput :=
  if has_interface
  then if init_ok then Some (PathInput initial_context) else None
  else None.

(** ** Observations and reachable states *)

(** Every device that is enabled, seat by seat. *)
Definition all_devices (st : path_input) : list evdev_device :=
  flat_map devices_list (seat_list st).

Definition seat_names (s : libinput_seat) : string * string :=
  (physical_name s, logical_name s).

(** The devices of the seat with the given names. *)
Definition named_devices (st : path_input) (physical logical : string)
    : list evdev_device :=
  match path_seat_get_named st physical logical with
  | Some s => devices_list s
  | None => []
  end.

(** The logical seat name [path_device_enable] settles on when the
    name can be allocated. *)
Definition resolved_name (seat_logical_name_override : option string) : string :=
  match seat_logical_name_override with
  | Some o => o
  | None => default_seat_name
  end.

(** [d] is a device made from the record [dev]. *)
Definition created_from (dev : path_device) (d : evdev_device) : Prop :=
  c_str (ev_devnode d) = c_str (devnode dev) /\ ev_sysname d = sysname dev.

(** The resume sweep in the words of its description: every record is
    enabled with no override, in registry order, and every one of these
    enables yields a device. *)
Inductive enable_all : list path_device -> path_input ->
    list evdev_device -> path_input -> Prop :=
| enable_all_nil st : enable_all [] st [] st
| enable_all_cons dev next st d st1 ds st2 :
    path_device_enable st dev None = (Some d, st1) ->
    enable_all next st1 ds st2 ->
    enable_all (dev :: next) st (d :: ds) st2.

(** The states a client can bring a context to: a fresh context, and
    whatever the exported calls and the backend table make of a
    reachable one.  Device handles passed in are handles of enabled
    devices; [ok_path] restricts the paths given to addDevice. *)
Inductive reachable (ok_path : string -> Prop) : path_input -> Prop :=
| reach_create : reachable ok_path initial_context
| reach_add st path r st' :
    reachable ok_path st -> ok_path path ->
    libinput_path_add_device (PathInput st) path = (r, PathInput st') ->
    reachable ok_path st'
| reach_remove st d st' :
    reachable ok_path st -> In d (all_devices st) ->
    libinput_path_remove_device (PathInput st) d = PathInput st' ->
    reachable ok_path st'
| reach_suspend st :
    reachable ok_path st -> reachable ok_path (path_input_disable st)
| reach_resume st :
    reachable ok_path st -> reachable ok_path (snd (path_input_enable st))
| reach_change_seat st d name :
    reachable ok_path st -> In d (all_devices st) ->
    reachable ok_path (snd (path_device_change_seat st d name)).

End PathBackend.

(** The message [path_device_enable] logs when the adapter gives no
    device (lines 156-166). *)
Definition info_format (res : probe_result) : string :=
  match res with
  | PROBE_UNHANDLED => "%-7s - not using input device '%s'.\n"
  | _ => "%-7s - failed to create input device '%s'.\n"
  end.

(** ** Well-formed contexts *)

(** What the heap guarantees of a seat: its devices are distinct objects
    that point back at it, each of them holds one of its references, and
    a seat that is linked is referenced. *)
Definition seat_ok (s : libinput_seat) : Prop :=
  NoDup (map ev_ptr (devices_list s)) /\
  Forall (fun d => ev_seat d = seat_ptr s) (devices_list s) /\
  Z.of_nat (length (devices_list s)) <= refcount s /\
  0 < refcount s.

Definition seat_below (n : ptr) (s : libinput_seat) : Prop :=
  (seat_ptr s < n)%nat /\ Forall (fun d => (ev_ptr d < n)%nat) (devices_list s).

(** Seats are distinct objects, and nothing lives at an address the
    allocator has not handed out yet. *)
Definition wf (st : path_input) : Prop :=
  NoDup (map seat_ptr (seat_list st)) /\
  Forall seat_ok (seat_list st) /\
  Forall (seat_below (next_ptr st)) (seat_list st).

(** What holds of every reachable context: it is well formed, no two seats
    have the same pair of names, and every devnode string of a record or
    of a device satisfies [P] when every path given to addDevice does. *)
Definition inv (P : string -> Prop) (st : path_input) : Prop :=
  wf st /\
  NoDup (map seat_names (seat_list st)) /\
  Forall (fun r => P (c_str (devnode r))) (path_list st) /\
  Forall (fun d => P (c_str (ev_devnode d))) (all_devices st).

(** What the suspend sweep leaves of one seat: no device, the references
    the devices held given back, and nothing at all when these were the
    only references. *)
Definition swept (s : libinput_seat) : list libinput_seat :=
  if Z.eqb (refcount s - Z.of_nat (length (devices_list s))) 0 then []
  else [mk_seat (seat_ptr s) (physical_name s) (logical_name s)
                (refcount s - Z.of_nat (length (devices_list s))) []].

(** What removing the device at address [p] leaves of its seat. *)
Definition seat_without (p : ptr) (s : libinput_seat) : list libinput_seat :=
  if Z.eqb (refcount s - 1) 0 then []
  else [mk_seat (seat_ptr s) (physical_name s) (logical_name s)
                (refcount s - 1) (device_unlink p (devices_list s))].

(** The state differs from [st] in the seat registry at most. *)
Definition seats_only (st st' : path_input) : Prop :=
  st' = set_seat_list st (seat_list st').

(** The references of a seat are those of its devices, one each. *)
Definition counted (s : libinput_seat) : Prop :=
  refcount s = Z.of_nat (length (devices_list s)).

(** The seat is the seat (seat0, default). *)
Definition on_default_seat (s : libinput_seat) : Prop :=
  seat_names s = (default_seat, default_seat_name).

(** ** Example oracles and contexts *)

(** An adapter that makes a device of every node and keeps the pointer it
    is given, and one that handles no node. *)
Definition probe_always_ok : nat -> string -> string -> probe_result :=
  fun _ _ _ => PROBE_OK false.

Definition probe_unhandled : nat -> string -> string -> probe_result :=
  fun _ _ _ => PROBE_UNHANDLED.

Definition never_oom : nat -> bool := fun _ => false.
Definition always_oom : nat -> bool := fun _ => true.

(** A fresh context after addDevice of /dev/input/event3, the device this
    made, and the context after a second addDevice and after a suspend. *)
Definition event3_enabled : path_input :=
  snd (path_create_device probe_always_ok never_oom initial_context
                          "/dev/input/event3" None).

Definition event3_device : evdev_device :=
  mk_evdev_device 3%nat (mk_cstr 1%nat "/dev/input/event3") "event3" 2%nat.

Definition two_enabled : path_input :=
  snd (path_create_device probe_always_ok never_oom event3_enabled
                          "/dev/input/event4" None).

Definition two_suspended : path_input := path_input_disable two_enabled.

(** The record of /dev/input/event3 in [event3_enabled]. *)
Definition event3_record : path_device :=
  mk_path_device 0%nat (mk_cstr 1%nat "/dev/input/event3") "event3".

(** The device of /dev/input/event4 in [two_enabled], and the context
    after removeDevice of it: its seat stays, with the other device. *)
Definition event4_device : evdev_device :=
  mk_evdev_device 6%nat (mk_cstr 5%nat "/dev/input/event4") "event4" 2%nat.

Definition event4_removed : path_input :=
  match libinput_path_remove_device (PathInput two_enabled) event4_device with
  | PathInput st => st
  | OtherBackend _ => initial_context
  end.

(** The seat of [event3_enabled]. *)
Definition event3_seat : libinput_seat :=
  mk_seat 2%nat default_seat default_seat_name 1 [event3_device].

(** The context after removeDevice of the device of /dev/input/event3. *)
Definition event3_removed : path_input :=
  match libinput_path_remove_device (PathInput event3_enabled) event3_device with
  | PathInput st => st
  | OtherBackend _ => initial_context
  end.

(** A fresh context after a failed addDevice of /dev/null. *)
Definition null_rejected : path_input :=
  snd (path_create_device probe_unhandled never_oom initial_context "/dev/null" None).

(** A fresh context after addDevice of the empty path. *)
Definition empty_path_enabled : path_input :=
  snd (path_create_device probe_always_ok never_oom initial_context "" None).

(** * Proofs *)

(** ** Addressing a node of a list *)

Lemma seat_find_focus pre s post :
  ~ In (seat_ptr s) (map seat_ptr pre) ->
  seat_find (seat_ptr s) (pre ++ s :: post) = Some s.
Proof.
  induction pre as [|a pre IH]; simpl; intros H.
  - now rewrite Nat.eqb_refl.
  - destruct (Nat.eqb_spec (seat_ptr a) (seat_ptr s)) as [E|E].
    + exfalso; apply H; now left.
    + apply IH; intro; apply H; now right.
Qed.

Lemma seat_update_focus f pre s post :
  ~ In (seat_ptr s) (map seat_ptr pre) ->
  seat_update (seat_ptr s) f (pre ++ s :: post) = pre ++ f s :: post.
Proof.
  induction pre as [|a pre IH]; simpl; intros H.
  - now rewrite Nat.eqb_refl.
  - destruct (Nat.eqb_spec (seat_ptr a) (seat_ptr s)) as [E|E].
    + exfalso; apply H; now left.
    + f_equal; apply IH; intro; apply H; now right.
Qed.

Lemma seat_update_at p f pre s post :
  seat_ptr s = p ->
  ~ In p (map seat_ptr pre) ->
  seat_update p f (pre ++ s :: post) = pre ++ f s :: post.
Proof. intros <-; apply seat_update_focus. Qed.

Lemma seat_unlink_focus pre s post :
  ~ In (seat_ptr s) (map seat_ptr pre) ->
  seat_unlink (seat_ptr s) (pre ++ s :: post) = pre ++ post.
Proof.
  induction pre as [|a pre IH]; simpl; intros H.
  - now rewrite Nat.eqb_refl.
  - destruct (Nat.eqb_spec (seat_ptr a) (seat_ptr s)) as [E|E].
    + exfalso; apply H; now left.
    + f_equal; apply IH; intro; apply H; now right.
Qed.

Lemma device_unlink_focus dpre d dpost :
  ~ In (ev_ptr d) (map ev_ptr dpre) ->
  device_unlink (ev_ptr d) (dpre ++ d :: dpost) = dpre ++ dpost.
Proof.
  induction dpre as [|a dpre IH]; simpl; intros H.
  - now rewrite Nat.eqb_refl.
  - destruct (Nat.eqb_spec (ev_ptr a) (ev_ptr d)) as [E|E].
    + exfalso; apply H; now left.
    + f_equal; apply IH; intro; apply H; now right.
Qed.

Lemma NoDup_map_focus {A} (f : A -> ptr) pre x post :
  NoDup (map f (pre ++ x :: post)) ->
  ~ In (f x) (map f pre) /\ ~ In (f x) (map f post).
Proof.
  rewrite map_app; simpl; intros H.
  apply NoDup_remove_2 in H.
  split; intro; apply H; apply in_or_app; auto.
Qed.

Lemma NoDup_snoc {A} (l : list A) x : NoDup l -> ~ In x l -> NoDup (l ++ [x]).
Proof.
  induction l as [|a l IH]; simpl; intros Hnd Hx.
  - repeat constructor; auto.
  - inversion Hnd as [|? ? Ha Hl]; subst. constructor.
    + rewrite in_app_iff; simpl. intuition.
    + apply IH; auto.
Qed.

Lemma device_unlink_incl p l d : In d (device_unlink p l) -> In d l.
Proof.
  induction l as [|a l IH]; simpl; auto.
  destruct (Nat.eqb (ev_ptr a) p); simpl; intuition.
Qed.

(** ** Operations that touch the seat registry only *)

Lemma seats_only_refl st : seats_only st st.
Proof. destruct st; reflexivity. Qed.

Lemma seats_only_set st l : seats_only st (set_seat_list st l).
Proof. reflexivity. Qed.

Lemma seats_only_trans st1 st2 st3 :
  seats_only st1 st2 -> seats_only st2 st3 -> seats_only st1 st3.
Proof.
  unfold seats_only; intros H12 H23.
  rewrite H23 at 1. rewrite H12 at 1. reflexivity.
Qed.

Lemma seats_only_fields st st' :
  seats_only st st' ->
  path_list st' = path_list st /\ next_ptr st' = next_ptr st /\
  alloc_clock st' = alloc_clock st /\ probe_clock st' = probe_clock st /\
  log st' = log st.
Proof. intros ->; simpl; auto. Qed.

Lemma libinput_seat_ref_seats_only p st : seats_only st (libinput_seat_ref p st).
Proof. apply seats_only_set. Qed.

Lemma libinput_seat_unref_seats_only p st : seats_only st (libinput_seat_unref p st).
Proof.
  unfold libinput_seat_unref.
  destruct (seat_find p (seat_list st)) as [s|]; [|apply seats_only_refl].
  destruct (Z.eqb _ _); apply seats_only_set.
Qed.

Lemma evdev_device_remove_seats_only d st : seats_only st (evdev_device_remove d st).
Proof.
  unfold evdev_device_remove.
  eapply seats_only_trans; [apply seats_only_set|apply libinput_seat_unref_seats_only].
Qed.

Lemma path_disable_device_seats_only st d : seats_only st (path_disable_device st d).
Proof.
  unfold path_disable_device.
  induction (seat_devices (ev_seat d) st) as [|dev next IH]; simpl.
  - apply seats_only_refl.
  - destruct (Nat.eqb _ _); [apply evdev_device_remove_seats_only|exact IH].
Qed.

Lemma fold_left_seats_only {A} (f : path_input -> A -> path_input) :
  (forall st a, seats_only st (f st a)) ->
  forall l st, seats_only st (fold_left f l st).
Proof.
  intros Hf l; induction l as [|a l IH]; simpl; intros st.
  - apply seats_only_refl.
  - eapply seats_only_trans; [apply Hf|apply IH].
Qed.

Lemma path_input_disable_seat_seats_only st s :
  seats_only st (path_input_disable_seat st s).
Proof.
  unfold path_input_disable_seat.
  eapply seats_only_trans; [apply libinput_seat_ref_seats_only|].
  eapply seats_only_trans; [|apply libinput_seat_unref_seats_only].
  apply fold_left_seats_only, path_disable_device_seats_only.
Qed.

Lemma path_input_disable_seats_only st : seats_only st (path_input_disable st).
Proof. apply fold_left_seats_only, path_input_disable_seat_seats_only. Qed.

(** ** One seat in focus *)

Lemma libinput_seat_ref_focus st p pre s post :
  seat_list st = pre ++ s :: post ->
  seat_ptr s = p ->
  ~ In p (map seat_ptr pre) ->
  seat_list (libinput_seat_ref p st) =
  pre ++ set_refcount s (refcount s + 1) :: post.
Proof.
  intros E <- H; unfold libinput_seat_ref; simpl.
  rewrite E; now apply seat_update_focus.
Qed.

Lemma libinput_seat_unref_focus st p pre s post :
  seat_list st = pre ++ s :: post ->
  seat_ptr s = p ->
  ~ In p (map seat_ptr pre) ->
  seat_list (libinput_seat_unref p st) =
  pre ++ (if Z.eqb (refcount s - 1) 0 then []
          else [set_refcount s (refcount s - 1)]) ++ post.
Proof.
  intros E <- H; unfold libinput_seat_unref.
  rewrite E, seat_find_focus by assumption.
  destruct (Z.eqb _ _); simpl.
  - now apply seat_unlink_focus.
  - now apply seat_update_focus.
Qed.

Lemma evdev_device_remove_focus st d pre s post :
  seat_list st = pre ++ s :: post ->
  ~ In (seat_ptr s) (map seat_ptr pre) ->
  ev_seat d = seat_ptr s ->
  seat_list (evdev_device_remove d st) =
  pre ++ seat_without (ev_ptr d) s ++ post.
Proof.
  intros E H Hd; unfold evdev_device_remove.
  rewrite Hd, E, seat_update_focus by assumption.
  erewrite libinput_seat_unref_focus; [|reflexivity|reflexivity|exact H].
  reflexivity.
Qed.

Lemma seat_devices_focus st p pre s post :
  seat_list st = pre ++ s :: post ->
  seat_ptr s = p ->
  ~ In p (map seat_ptr pre) ->
  seat_devices p st = devices_list s.
Proof.
  intros E <- H; unfold seat_devices. now rewrite E, seat_find_focus.
Qed.

Lemma path_disable_scan_found devs d st :
  In (ev_ptr d) (map ev_ptr devs) ->
  path_disable_scan devs d st = evdev_device_remove d st.
Proof.
  induction devs as [|dev next IH]; simpl; [tauto|].
  destruct (Nat.eqb_spec (ev_ptr dev) (ev_ptr d)); [reflexivity|].
  intros [E|Hin]; [contradiction|auto].
Qed.

(** Disabling a device that is on the focused seat. *)
Lemma path_disable_device_focus st d pre s post :
  seat_list st = pre ++ s :: post ->
  ~ In (seat_ptr s) (map seat_ptr pre) ->
  ev_seat d = seat_ptr s ->
  In (ev_ptr d) (map ev_ptr (devices_list s)) ->
  seat_list (path_disable_device st d) =
  pre ++ seat_without (ev_ptr d) s ++ post.
Proof.
  intros E H Hd Hin; unfold path_disable_device.
  rewrite Hd, (seat_devices_focus _ _ _ _ _ E eq_refl H).
  rewrite path_disable_scan_found by assumption.
  now apply evdev_device_remove_focus.
Qed.

(** ** The suspend sweep *)

(** The inner loop of [path_input_disable] while the sweep's reference
    is held: every device goes, and each gives its reference back. *)
Lemma disable_devices_focus pre post p n1 n2 :
  ~ In p (map seat_ptr pre) ->
  forall ds st r,
    seat_list st = pre ++ mk_seat p n1 n2 r ds :: post ->
    Forall (fun d => ev_seat d = p) ds ->
    Z.of_nat (length ds) < r ->
    seat_list (fold_left path_disable_device ds st) =
    pre ++ mk_seat p n1 n2 (r - Z.of_nat (length ds)) [] :: post.
Proof.
  intros Hp ds; induction ds as [|d ds IH]; intros st r E Hseat Hr.
  - simpl. rewrite E. do 3 f_equal. lia.
  - cbn [fold_left].
    pose proof (Forall_inv Hseat) as Hd; pose proof (Forall_inv_tail Hseat) as Hds.
    cbv beta in Hd.
    pose proof (path_disable_device_focus st d pre _ post E Hp Hd) as Hstep.
    unfold seat_without in Hstep; simpl in Hstep.
    rewrite Nat.eqb_refl in Hstep.
    destruct (Z.eqb_spec (r - 1) 0) as [E0|E0].
    { cbn [length] in Hr. lia. }
    specialize (Hstep (or_introl eq_refl)).
    rewrite (IH _ (r - 1) Hstep Hds).
    + do 3 f_equal. cbn [length]. lia.
    + cbn [length] in Hr. lia.
Qed.

Lemma path_input_disable_seat_focus st pre s post :
  seat_list st = pre ++ s :: post ->
  ~ In (seat_ptr s) (map seat_ptr pre) ->
  Forall (fun d => ev_seat d = seat_ptr s) (devices_list s) ->
  Z.of_nat (length (devices_list s)) <= refcount s ->
  seat_list (path_input_disable_seat st s) = pre ++ swept s ++ post.
Proof.
  intros E Hp Hseat Hr; unfold path_input_disable_seat.
  pose proof (libinput_seat_ref_focus st _ pre s post E eq_refl Hp) as E1.
  rewrite (seat_devices_focus _ (seat_ptr s) _ _ _ E1 eq_refl Hp).
  cbn [set_refcount devices_list].
  unfold set_refcount in E1.
  pose proof (disable_devices_focus pre post _ _ _ Hp _ _ _ E1 Hseat) as E2.
  specialize (E2 ltac:(lia)).
  rewrite (libinput_seat_unref_focus _ (seat_ptr s) _ _ _ E2 eq_refl Hp).
  unfold swept; cbn [refcount set_refcount].
  replace (refcount s + 1 - Z.of_nat (length (devices_list s)) - 1)
    with (refcount s - Z.of_nat (length (devices_list s))) by lia.
  destruct (Z.eqb _ _); reflexivity.
Qed.

Lemma swept_ptr s : forall s', In s' (swept s) -> seat_ptr s' = seat_ptr s.
Proof.
  unfold swept; destruct (Z.eqb _ _); simpl; [tauto|].
  intros s' [<-|[]]; reflexivity.
Qed.

Lemma path_input_disable_fold todo :
  forall pre st,
    seat_list st = pre ++ todo ->
    NoDup (map seat_ptr (pre ++ todo)) ->
    Forall seat_ok todo ->
    seat_list (fold_left path_input_disable_seat todo st) =
    pre ++ flat_map swept todo.
Proof.
  induction todo as [|s todo IH]; intros pre st E Hnd Hok.
  - simpl. now rewrite E.
  - cbn [fold_left flat_map].
    pose proof (Forall_inv Hok) as [_ [Hseat [Hr _]]].
    pose proof (Forall_inv_tail Hok) as Hok'.
    destruct (NoDup_map_focus seat_ptr pre s todo Hnd) as [Hpre Hpost].
    pose proof (path_input_disable_seat_focus st pre s todo E Hpre Hseat Hr) as E1.
    rewrite app_assoc in E1 |- *.
    apply IH; [exact E1| |exact Hok'].
    rewrite map_app in Hnd. cbn [map] in Hnd.
    unfold swept; destruct (Z.eqb _ _).
    + rewrite app_nil_r, map_app. now apply NoDup_remove_1 in Hnd.
    + rewrite <- app_assoc, map_app. exact Hnd.
Qed.

Lemma path_input_disable_seat_list st :
  wf st -> seat_list (path_input_disable st) = flat_map swept (seat_list st).
Proof.
  intros (Hnd & Hok & _). unfold path_input_disable.
  apply (path_input_disable_fold (seat_list st) [] st); auto.
Qed.

Lemma flat_map_swept_devices l : flat_map devices_list (flat_map swept l) = [].
Proof.
  induction l as [|s l IH]; simpl; [reflexivity|].
  rewrite flat_map_app, IH, app_nil_r.
  unfold swept; destruct (Z.eqb _ _); reflexivity.
Qed.

(** ** Well-formedness is kept by the sweep *)

Lemma NoDup_map_replace {B} (f : libinput_seat -> B) pre s post X :
  NoDup (map f (pre ++ s :: post)) ->
  (X = [] \/ exists s', X = [s'] /\ f s' = f s) ->
  NoDup (map f (pre ++ X ++ post)).
Proof.
  intros Hnd [->|(s' & -> & E)].
  - rewrite map_app in *. simpl in *. now apply NoDup_remove_1 in Hnd.
  - rewrite map_app in *. simpl in *. now rewrite E.
Qed.

Lemma swept_cases s :
  swept s = [] \/ exists s', swept s = [s'] /\ seat_ptr s' = seat_ptr s.
Proof.
  unfold swept; destruct (Z.eqb _ _); [now left|right].
  eexists; split; reflexivity.
Qed.

Lemma seat_without_cases p s :
  seat_without p s = [] \/
  exists s', seat_without p s = [s'] /\ seat_ptr s' = seat_ptr s.
Proof.
  unfold seat_without; destruct (Z.eqb _ _); [now left|right].
  eexists; split; reflexivity.
Qed.

Lemma flat_map_swept_ptr l p :
  In p (map seat_ptr (flat_map swept l)) -> In p (map seat_ptr l).
Proof.
  induction l as [|s l IH]; simpl; [tauto|].
  rewrite map_app, in_app_iff. intros [H|H]; [left|right; auto].
  apply in_map_iff in H as (s' & <- & Hin).
  symmetry; now apply swept_ptr.
Qed.

Lemma flat_map_swept_NoDup l :
  NoDup (map seat_ptr l) -> NoDup (map seat_ptr (flat_map swept l)).
Proof.
  induction l as [|s l IH]; simpl; intros Hnd; [constructor|].
  inversion Hnd as [|? ? Hnotin Hnd']; subst.
  destruct (swept_cases s) as [->|(s' & -> & E)]; simpl; [auto|].
  constructor; [|auto].
  rewrite E. intro H; apply Hnotin. now apply flat_map_swept_ptr.
Qed.

Lemma swept_ok s : seat_ok s -> Forall seat_ok (swept s).
Proof.
  intros (_ & _ & Hr & _). unfold swept.
  destruct (Z.eqb_spec (refcount s - Z.of_nat (length (devices_list s))) 0);
    constructor; [|constructor].
  unfold seat_ok; simpl. repeat split; try constructor; lia.
Qed.

Lemma swept_below n s : seat_below n s -> Forall (seat_below n) (swept s).
Proof.
  intros (Hp & _). unfold swept. destruct (Z.eqb _ _); constructor; [|constructor].
  split; simpl; [exact Hp|constructor].
Qed.

Lemma Forall_flat_map_intro {A B} (P : A -> Prop) (Q : B -> Prop) (g : A -> list B) l :
  (forall a, P a -> Forall Q (g a)) -> Forall P l -> Forall Q (flat_map g l).
Proof.
  intros Hg; induction 1 as [|a l Ha Hl IH]; simpl; [constructor|].
  apply Forall_app; split; auto.
Qed.

Lemma path_input_disable_wf st : wf st -> wf (path_input_disable st).
Proof.
  intros Hwf. pose proof Hwf as (Hnd & Hok & Hbelow).
  pose proof (path_input_disable_seat_list st Hwf) as E.
  destruct (seats_only_fields _ _ (path_input_disable_seats_only st))
    as (_ & Hn & _).
  unfold wf. rewrite E, Hn. repeat split.
  - now apply flat_map_swept_NoDup.
  - eapply Forall_flat_map_intro; [apply swept_ok|exact Hok].
  - eapply Forall_flat_map_intro; [apply swept_below|exact Hbelow].
Qed.

Lemma path_input_disable_no_devices st :
  wf st -> all_devices (path_input_disable st) = [].
Proof.
  intros Hwf. unfold all_devices.
  rewrite (path_input_disable_seat_list st Hwf). apply flat_map_swept_devices.
Qed.

(** ** Looking a seat up by name *)

Lemma seat_get_named_split l a b s :
  seat_get_named l a b = Some s ->
  exists pre post,
    l = pre ++ s :: post /\ seat_get_named pre a b = None /\
    physical_name s = a /\ logical_name s = b.
Proof.
  induction l as [|x l IH]; simpl; [discriminate|].
  destruct (String.eqb (physical_name x) a && String.eqb (logical_name x) b) eqn:E.
  - intros [= ->]. apply andb_prop in E as [Ea Eb].
    apply String.eqb_eq in Ea, Eb.
    exists [], l; simpl; auto.
  - intros H. destruct (IH H) as (pre & post & -> & Hpre & Hn).
    exists (x :: pre), post; simpl. rewrite E. auto.
Qed.

Lemma seat_get_named_None l a b :
  seat_get_named l a b = None <-> ~ In (a, b) (map seat_names l).
Proof.
  induction l as [|x l IH]; simpl; [tauto|].
  destruct (String.eqb (physical_name x) a && String.eqb (logical_name x) b) eqn:E.
  - apply andb_prop in E as [Ea Eb]. apply String.eqb_eq in Ea, Eb.
    split; [discriminate|]. intros H; exfalso; apply H; left.
    unfold seat_names; now rewrite Ea, Eb.
  - rewrite IH. split; intros H; [|tauto].
    intros [Hx|Hin]; [|tauto].
    unfold seat_names in Hx; injection Hx as Ea Eb.
    rewrite Ea, Eb, !String.eqb_refl in E. discriminate.
Qed.

Lemma seat_get_named_app_skip pre l a b :
  seat_get_named pre a b = None ->
  seat_get_named (pre ++ l) a b = seat_get_named l a b.
Proof.
  induction pre as [|x pre IH]; simpl; [reflexivity|].
  destruct (_ && _); [discriminate|exact IH].
Qed.

Lemma seat_get_named_head s l a b :
  physical_name s = a -> logical_name s = b ->
  seat_get_named (s :: l) a b = Some s.
Proof. intros <- <-; simpl. now rewrite !String.eqb_refl. Qed.

Lemma Forall_below_not_in n l :
  Forall (seat_below n) l -> ~ In n (map seat_ptr l).
Proof.
  intros H Hin. apply in_map_iff in Hin as (s & E & Hs).
  rewrite Forall_forall in H. destruct (H s Hs) as [Hlt _]. lia.
Qed.

Lemma seat_below_mono n m s : (n <= m)%nat -> seat_below n s -> seat_below m s.
Proof.
  intros Hnm (Hp & Hd); split; [lia|].
  eapply Forall_impl; [|exact Hd]. simpl; intros; lia.
Qed.

Lemma Forall_below_mono n m l :
  (n <= m)%nat -> Forall (seat_below n) l -> Forall (seat_below m) l.
Proof. intros Hnm; apply Forall_impl; intros s; now apply seat_below_mono. Qed.

Lemma wf_focus st pre s post :
  wf st -> seat_list st = pre ++ s :: post ->
  ~ In (seat_ptr s) (map seat_ptr pre) /\ ~ In (seat_ptr s) (map seat_ptr post) /\
  seat_ok s /\ seat_below (next_ptr st) s.
Proof.
  intros (Hnd & Hok & Hbelow) E. rewrite E in *.
  destruct (NoDup_map_focus seat_ptr pre s post Hnd) as [H1 H2].
  apply Forall_elt in Hok, Hbelow. auto.
Qed.

(** Replacing the focused seat of a well-formed context. *)
Lemma wf_replace st st' pre s post X :
  wf st -> seat_list st = pre ++ s :: post ->
  seat_list st' = pre ++ X ++ post ->
  (next_ptr st <= next_ptr st')%nat ->
  (X = [] \/ exists s', X = [s'] /\ seat_ptr s' = seat_ptr s) ->
  Forall seat_ok X -> Forall (seat_below (next_ptr st')) X ->
  wf st'.
Proof.
  intros (Hnd & Hok & Hbelow) E E' Hn HX HXok HXbelow.
  rewrite E in *. unfold wf. rewrite E'. repeat split.
  - eapply (NoDup_map_replace seat_ptr); eauto.
  - apply Forall_app in Hok as [H1 H2]. apply Forall_inv_tail in H2.
    repeat (apply Forall_app; split); auto.
  - apply Forall_app in Hbelow as [H1 H2]. apply Forall_inv_tail in H2.
    repeat (apply Forall_app; split); auto;
      eapply Forall_below_mono; eauto.
Qed.

(** C5. Suspend ([path_input_disable]) is a total function of the context:
    from every well-formed context it leaves every seat without a device
    (no device is enabled), takes from each seat exactly the references its
    devices held (the sweep's own reference is taken and released), drops
    the seats that lose their last reference, and changes nothing but the
    seat registry: the path registry is the same.  The reference the sweep
    takes keeps the seat linked while its devices go: with it, disabling
    every device of a seat leaves the seat in place, empty. *)
Theorem path_input_disable_disables_everything (st : path_input) :
  wf st ->
  seat_list (path_input_disable st) = flat_map swept (seat_list st) /\
  Forall (fun s => devices_list s = []) (seat_list (path_input_disable st)) /\
  all_devices (path_input_disable st) = [] /\
  path_list (path_input_disable st) = path_list st /\
  seats_only st (path_input_disable st) /\
  (forall pre s post,
      seat_list st = pre ++ s :: post ->
      seat_list (fold_left path_disable_device (devices_list s)
                           (libinput_seat_ref (seat_ptr s) st)) =
      pre ++ mk_seat (seat_ptr s) (physical_name s) (logical_name s)
                     (refcount s + 1 - Z.of_nat (length (devices_list s))) []
          :: post).
Proof.
  intros Hwf.
  pose proof (path_input_disable_seat_list st Hwf) as E.
  split; [exact E|]. split; [|split; [|split; [|split]]].
  - rewrite E. eapply Forall_flat_map_intro with (P := fun _ => True).
    + intros s _. unfold swept. destruct (Z.eqb _ _); repeat constructor.
    + apply Forall_forall; auto.
  - now apply path_input_disable_no_devices.
  - apply (seats_only_fields _ _ (path_input_disable_seats_only st)).
  - apply path_input_disable_seats_only.
  - intros pre s post Es.
    destruct (wf_focus _ _ _ _ Hwf Es) as (Hpre & _ & (_ & Hseat & Hlen & _) & _).
    pose proof (libinput_seat_ref_focus st _ pre s post Es eq_refl Hpre) as E1.
    apply (disable_devices_focus pre post _ _ _ Hpre _ _ _ E1 Hseat). lia.
Qed.

(** ** Enabling one path record *)

Section WithOracles.

Variable probe : nat -> string -> string -> probe_result.
Variable oom : nat -> bool.

Lemma resolve_logical_name_spec ov st r st' :
  resolve_logical_name oom ov st = (r, st') ->
  seat_list st' = seat_list st /\ path_list st' = path_list st /\
  next_ptr st' = next_ptr st /\ log st' = log st /\
  probe_clock st' = probe_clock st /\
  match r with
  | Some lname =>
      ov = Some lname \/
      (ov = None /\ lname = default_seat_name /\ oom (alloc_clock st) = false)
  | None => ov = None /\ oom (alloc_clock st) = true
  end.
Proof.
  unfold resolve_logical_name, strdup. destruct ov as [o|].
  - intros [= <- <-]. auto 10.
  - destruct (oom (alloc_clock st)) eqn:E; intros [= <- <-]; simpl; auto 10.
Qed.

(** What the adapter call leaves behind, whatever its outcome. *)
Lemma evdev_device_create_frame seat dn sn st r st' :
  evdev_device_create probe seat dn sn st = (r, st') ->
  path_list st' = path_list st /\ log st' = log st /\
  alloc_clock st' = alloc_clock st /\
  probe_clock st' = S (probe_clock st) /\
  (next_ptr st <= next_ptr st')%nat.
Proof.
  unfold evdev_device_create.
  destruct (probe _ _ _) as [| |own].
  1,2: intros [= <- <-]; simpl; auto.
  destruct own; intros [= <- <-]; simpl; repeat split; lia.
Qed.

Lemma evdev_device_create_none seat dn sn st r st' :
  evdev_device_create probe seat dn sn st = (r, st') ->
  (forall own, probe (probe_clock st) (c_str dn) sn <> PROBE_OK own) ->
  st' = tick_probe st /\
  r = match probe (probe_clock st) (c_str dn) sn with
      | PROBE_UNHANDLED => EVDEV_UNHANDLED_DEVICE
      | _ => EVDEV_NULL
      end.
Proof.
  unfold evdev_device_create.
  destruct (probe _ _ _) as [| |own]; intros E H.
  1,2: injection E as <- <-; auto.
  now destruct (H own).
Qed.

(** The adapter creates a device on the focused seat: the device is a
    new object, it points back at the seat, it is the last of the seat's
    devices, and the seat has one more reference. *)
Lemma evdev_device_create_ok seat dn sn st own pre s post :
  probe (probe_clock st) (c_str dn) sn = PROBE_OK own ->
  seat_ptr s = seat ->
  seat_list st = pre ++ s :: post ->
  ~ In seat (map seat_ptr pre) ->
  exists d st',
    evdev_device_create probe seat dn sn st = (EVDEV_DEVICE d, st') /\
    ev_ptr d = next_ptr st /\ ev_seat d = seat /\
    c_str (ev_devnode d) = c_str dn /\ ev_sysname d = sn /\
    (own = false -> ev_devnode d = dn) /\
    (next_ptr st < next_ptr st')%nat /\
    seat_list st' =
    pre ++ mk_seat (seat_ptr s) (physical_name s) (logical_name s)
                   (refcount s + 1) (devices_list s ++ [d]) :: post.
Proof.
  intros Hp Hs E Hpre. unfold evdev_device_create. rewrite Hp.
  destruct own; cbn -[libinput_seat_ref seat_update].
  all: eexists; eexists; split; [reflexivity|].
  all: cbn [ev_ptr ev_seat ev_devnode ev_sysname c_str].
  all: repeat (split; [solve [reflexivity|discriminate|simpl; lia]|]).
  all: subst seat; unfold libinput_seat_ref; cbn [seat_list set_seat_list].
  all: rewrite E; erewrite !seat_update_at by (reflexivity || assumption).
  all: reflexivity.
Qed.

Lemma set_refcount_back s a : set_refcount (set_refcount s a) (refcount s) = s.
Proof. destruct s; reflexivity. Qed.

(** The part of [path_device_enable] after the seat has been found or
    made: the adapter call and the release of the local reference. *)
Lemma enable_tail_none dev st2 pre s2 post r st3 :
  seat_list st2 = pre ++ s2 :: post ->
  ~ In (seat_ptr s2) (map seat_ptr pre) ->
  evdev_device_create probe (seat_ptr s2) (devnode dev) (sysname dev) st2 = (r, st3) ->
  (forall own,
     probe (probe_clock st2) (c_str (devnode dev)) (sysname dev) <> PROBE_OK own) ->
  seat_list (libinput_seat_unref (seat_ptr s2) st3) =
    pre ++ (if Z.eqb (refcount s2 - 1) 0 then []
            else [set_refcount s2 (refcount s2 - 1)]) ++ post /\
  next_ptr (libinput_seat_unref (seat_ptr s2) st3) = next_ptr st2 /\
  (r = EVDEV_UNHANDLED_DEVICE \/ r = EVDEV_NULL).
Proof.
  intros E Hpre Hc Hp.
  destruct (evdev_device_create_none _ _ _ _ _ _ Hc Hp) as [-> Hr].
  split; [|split].
  - now apply libinput_seat_unref_focus with (s := s2).
  - now destruct (seats_only_fields _ _
                    (libinput_seat_unref_seats_only (seat_ptr s2) (tick_probe st2)))
      as (_ & -> & _).
  - rewrite Hr. destruct (probe _ _ _); auto.
Qed.

Lemma enable_tail_ok dev st2 pre s2 post own :
  seat_list st2 = pre ++ s2 :: post ->
  ~ In (seat_ptr s2) (map seat_ptr pre) ->
  probe (probe_clock st2) (c_str (devnode dev)) (sysname dev) = PROBE_OK own ->
  refcount s2 <> 0 ->
  exists d st3,
    evdev_device_create probe (seat_ptr s2) (devnode dev) (sysname dev) st2
      = (EVDEV_DEVICE d, st3) /\
    created_from dev d /\ ev_ptr d = next_ptr st2 /\ ev_seat d = seat_ptr s2 /\
    (own = false -> ev_devnode d = devnode dev) /\
    (next_ptr st2 < next_ptr (libinput_seat_unref (seat_ptr s2) st3))%nat /\
    seat_list (libinput_seat_unref (seat_ptr s2) st3) =
      pre ++ mk_seat (seat_ptr s2) (physical_name s2) (logical_name s2)
                     (refcount s2) (devices_list s2 ++ [d]) :: post.
Proof.
  intros E Hpre Hp Hr.
  destruct (evdev_device_create_ok _ _ _ _ _ _ _ _ Hp eq_refl E Hpre)
    as (d & st3 & Hc & Hptr & Hseat & Hdn & Hsn & Hown & Hnext & E3).
  exists d, st3. repeat (split; [assumption || (split; assumption)|]).
  split.
  - destruct (seats_only_fields _ _
                (libinput_seat_unref_seats_only (seat_ptr s2) st3))
      as (_ & -> & _). exact Hnext.
  - rewrite (libinput_seat_unref_focus _ (seat_ptr s2) _ _ _ E3 eq_refl Hpre).
    cbn [refcount].
    destruct (Z.eqb_spec (refcount s2 + 1 - 1) 0); [lia|].
    unfold set_refcount; cbn. do 3 f_equal. lia.
Qed.

(** Lines 136-149: the seat the device goes to is the registered seat
    of that name, with one more reference, or a new seat at the head of
    the registry with one reference. *)
Lemma acquire_seat st1 lname :
  wf st1 ->
  exists seat st2 pre s2 post,
    match path_seat_get_named st1 default_seat lname with
    | Some s => (seat_ptr s, libinput_seat_ref (seat_ptr s) st1)
    | None => path_seat_create default_seat lname st1
    end = (seat, st2) /\
    seat_list st2 = pre ++ s2 :: post /\ seat_ptr s2 = seat /\
    ~ In seat (map seat_ptr pre) /\
    path_list st2 = path_list st1 /\ log st2 = log st1 /\
    alloc_clock st2 = alloc_clock st1 /\ probe_clock st2 = probe_clock st1 /\
    ((exists s,
        seat_get_named (seat_list st1) default_seat lname = Some s /\
        seat_list st1 = pre ++ s :: post /\
        s2 = set_refcount s (refcount s + 1) /\
        next_ptr st2 = next_ptr st1 /\
        seat_get_named pre default_seat lname = None /\
        seat_names s = (default_seat, lname)) \/
     (seat_get_named (seat_list st1) default_seat lname = None /\
      pre = [] /\ post = seat_list st1 /\
      s2 = mk_seat (next_ptr st1) default_seat lname 1 [] /\
      next_ptr st2 = S (next_ptr st1))).
Proof.
  intros Hwf. unfold path_seat_get_named.
  destruct (seat_get_named (seat_list st1) default_seat lname) as [s|] eqn:G.
  - destruct (seat_get_named_split _ _ _ _ G) as (pre & post & E & Gpre & Ea & Eb).
    destruct (wf_focus _ _ _ _ Hwf E) as (Hpre & _).
    exists (seat_ptr s), (libinput_seat_ref (seat_ptr s) st1), pre,
      (set_refcount s (refcount s + 1)), post.
    split; [reflexivity|].
    split; [now apply libinput_seat_ref_focus|].
    repeat (split; [solve [reflexivity|assumption]|]).
    left; exists s. unfold seat_names. rewrite Ea, Eb. auto 10.
  - exists (next_ptr st1), (snd (path_seat_create default_seat lname st1)), [],
      (mk_seat (next_ptr st1) default_seat lname 1 []), (seat_list st1).
    repeat (split; [solve [reflexivity|simpl; tauto]|]).
    right; auto.
Qed.

(** How [path_device_enable] changes a well-formed context.  Without a
    device the seat registry is what it was.  With a device, the device
    was made from the record, is a new object, and is the last device
    of the seat with the resolved names, which is the registered seat
    of these names or a new seat at the head of the registry. *)
Lemma path_device_enable_spec st dev ov r st' :
  wf st ->
  path_device_enable probe oom st dev ov = (r, st') ->
  path_list st' = path_list st /\ (next_ptr st <= next_ptr st')%nat /\
  match r with
  | None => seat_list st' = seat_list st
  | Some d =>
      created_from dev d /\ (next_ptr st <= ev_ptr d < next_ptr st')%nat /\
      exists lname,
        (ov = Some lname \/ (ov = None /\ lname = default_seat_name)) /\
        match seat_get_named (seat_list st) default_seat lname with
        | Some s =>
            exists pre post,
              seat_list st = pre ++ s :: post /\ ev_seat d = seat_ptr s /\
              seat_list st' =
              pre ++ mk_seat (seat_ptr s) (physical_name s) (logical_name s)
                             (refcount s + 1) (devices_list s ++ [d]) :: post /\
              seat_get_named pre default_seat lname = None /\
              seat_names s = (default_seat, lname)
        | None =>
            ev_seat d = next_ptr st /\
            seat_list st' = mk_seat (ev_seat d) default_seat lname 1 [d] :: seat_list st
        end
  end.
Proof.
  intros Hwf. unfold path_device_enable.
  destruct (resolve_logical_name oom ov st) as [[lname|] st1] eqn:R;
    apply resolve_logical_name_spec in R as (Es & Ep & En & El & Ec & Hov).
  2:{ intros [= <- <-]; simpl. repeat split; auto; lia. }
  assert (Hwf1 : wf st1).
  { unfold wf. rewrite Es, En. exact Hwf. }
  destruct (acquire_seat st1 lname Hwf1)
    as (seat & st2 & pre & s2 & post & -> & E2 & <- & Hpre & Ep2 & El2 & Ea2 & Ec2 & Hcase).
  assert (Hseat_back :
    (if Z.eqb (refcount s2 - 1) 0 then [] else [set_refcount s2 (refcount s2 - 1)])
      = match seat_get_named (seat_list st1) default_seat lname with
        | Some s => [s] | None => [] end).
  { destruct Hcase as [(s & G & E1 & -> & _)|(G & _ & _ & -> & _)]; rewrite G.
    - destruct (wf_focus _ _ _ _ Hwf1 E1) as (_ & _ & (_ & _ & _ & Hpos) & _).
      cbn [refcount set_refcount].
      destruct (Z.eqb_spec (refcount s + 1 - 1) 0); [lia|].
      replace (refcount s + 1 - 1) with (refcount s) by lia.
      destruct s; reflexivity.
    - reflexivity. }
  assert (Hlist1 : seat_list st1 =
    pre ++ match seat_get_named (seat_list st1) default_seat lname with
           | Some s => [s] | None => [] end ++ post).
  { destruct Hcase as [(s & G & E1 & _)|(G & -> & -> & _)]; rewrite G; auto. }
  assert (Hn12 : (next_ptr st1 <= next_ptr st2)%nat).
  { destruct Hcase as [(s & _ & _ & _ & -> & _)|(_ & _ & _ & _ & ->)]; lia. }
  destruct (probe (probe_clock st2) (c_str (devnode dev)) (sysname dev))
    as [| |own] eqn:P.
  3:{ assert (Hr2 : refcount s2 <> 0).
      { destruct Hcase as [(s & G & E1 & -> & _)|(_ & _ & _ & -> & _)]; simpl; [|lia].
        destruct (wf_focus _ _ _ _ Hwf1 E1) as (_ & _ & (_ & _ & _ & Hpos) & _). lia. }
      destruct (enable_tail_ok dev st2 pre s2 post own E2 Hpre P Hr2)
        as (d & st3 & Hc & Hfrom & Hptr & Hseat & _ & Hnext & E4).
      rewrite Hc. intros [= <- <-].
      destruct (seats_only_fields _ _ (libinput_seat_unref_seats_only (seat_ptr s2) st3))
        as (Ep4 & _).
      destruct (evdev_device_create_frame _ _ _ _ _ _ Hc) as (Ep3 & _).
      split; [congruence|]. split; [lia|]. split; [exact Hfrom|]. split; [lia|].
      exists lname. split; [tauto|]. rewrite <- Es.
      destruct Hcase as [(s & G & E1 & -> & Hn & Gpre & Hnames)|(G & -> & -> & -> & Hn)];
        rewrite G.
      - exists pre, post. repeat split; assumption.
      - cbn in Hseat, E4. rewrite Hseat. split; [congruence|exact E4]. }
  all: destruct (evdev_device_create probe (seat_ptr s2) (devnode dev) (sysname dev) st2)
         as [r3 st3] eqn:Hc.
  all: destruct (evdev_device_create_frame _ _ _ _ _ _ Hc) as (Ep3 & _).
  all: destruct (enable_tail_none dev st2 pre s2 post r3 st3 E2 Hpre Hc)
         as (E4 & Hn4 & Hr3); [rewrite P; discriminate|].
  all: destruct (seats_only_fields _ _ (libinput_seat_unref_seats_only (seat_ptr s2) st3))
         as (Ep4 & _).
  all: rewrite Hseat_back, <- Hlist1 in E4.
  all: destruct Hr3 as [-> | ->]; intros [= <- <-]; cbn [path_list seat_list next_ptr log_msg].
  all: repeat split; [congruence|lia|congruence].
Qed.

Lemma path_device_enable_wf st dev ov r st' :
  wf st -> path_device_enable probe oom st dev ov = (r, st') -> wf st'.
Proof.
  intros Hwf H. pose proof Hwf as (Hnd & Hok & Hbelow).
  destruct (path_device_enable_spec _ _ _ _ _ Hwf H) as (_ & Hn & Hr).
  destruct r as [d|].
  - destruct Hr as (_ & Hd & lname & _ & Hr).
    destruct (seat_get_named (seat_list st) default_seat lname) as [s|].
    + destruct Hr as (pre & post & E & Hs & E' & _).
      destruct (wf_focus _ _ _ _ Hwf E)
        as (_ & _ & (Hdn & Hds & Hlen & Hpos) & (Hsp & Hdp)).
      apply (wf_replace st st' pre s post [_] Hwf E E' Hn).
      * right; eexists; split; reflexivity.
      * constructor; [|constructor]. unfold seat_ok; cbn.
        rewrite map_app, length_app; cbn. repeat split.
        -- apply NoDup_snoc; [exact Hdn|].
           intros Hin. apply in_map_iff in Hin as (x & Ex & Hx).
           rewrite Forall_forall in Hdp. specialize (Hdp x Hx). lia.
        -- apply Forall_app; split; [exact Hds|]. repeat constructor; exact Hs.
        -- lia.
        -- lia.
      * constructor; [|constructor]. split; cbn; [lia|].
        apply Forall_app; split.
        -- eapply Forall_impl; [|exact Hdp]. cbn; intros; lia.
        -- repeat constructor; lia.
    + destruct Hr as (Hs & E'). unfold wf. rewrite E'. cbn. repeat split.
      * constructor; [|exact Hnd]. rewrite Hs. now apply Forall_below_not_in.
      * constructor; [|exact Hok]. unfold seat_ok; cbn.
        repeat split; try lia; repeat constructor; auto.
      * constructor.
        -- split; cbn; [lia|]. repeat constructor; lia.
        -- eapply Forall_below_mono; eauto.
  - unfold wf. rewrite Hr. repeat split; auto.
    eapply Forall_below_mono; eauto.
Qed.

Lemma path_device_enable_path_list st dev ov :
  path_list (snd (path_device_enable probe oom st dev ov)) = path_list st.
Proof.
  unfold path_device_enable.
  destruct (resolve_logical_name oom ov st) as [[lname|] st1] eqn:R;
    apply resolve_logical_name_spec in R as (_ & Ep & _); [|exact Ep].
  match goal with |- context [let (_, _) := ?acq in _] =>
    assert (Ep2 : path_list (snd acq) = path_list st1)
      by (destruct (path_seat_get_named st1 default_seat lname); reflexivity);
    destruct acq as [seat st2] end.
  cbn [snd] in Ep2.
  destruct (evdev_device_create probe seat (devnode dev) (sysname dev) st2)
    as [r3 st3] eqn:Hc.
  destruct (evdev_device_create_frame _ _ _ _ _ _ Hc) as (Ep3 & _).
  destruct (seats_only_fields _ _ (libinput_seat_unref_seats_only seat st3))
    as (Ep4 & _).
  destruct r3; cbn [snd path_list log_msg]; congruence.
Qed.

(** C10. [path_device_enable] leaves the path registry alone: for every
    context, every path record, every override and every outcome of the
    adapter, the list of records after the call is the list before it
    (same records, same devnode and short name). *)
Theorem path_device_enable_keeps_path_registry st dev ov :
  path_list (snd (path_device_enable probe oom st dev ov)) = path_list st.
Proof. apply path_device_enable_path_list. Qed.

(** C7. When the adapter is reached and reports the device as unhandled,
    [path_device_enable] returns no device, logs one message at
    informational priority, and leaves the seat registry as it was: no
    device is attached, the reference taken on the seat is given back,
    and a seat made for this call is gone again.  A creation failure of
    the adapter has the same outcome, with its own message. *)
Theorem path_device_enable_unhandled_is_not_an_error st dev ov res :
  wf st ->
  ov <> None \/ oom (alloc_clock st) = false ->
  res = PROBE_UNHANDLED \/ res = PROBE_FAILED ->
  probe (probe_clock st) (c_str (devnode dev)) (sysname dev) = res ->
  fst (path_device_enable probe oom st dev ov) = None /\
  seat_list (snd (path_device_enable probe oom st dev ov)) = seat_list st /\
  all_devices (snd (path_device_enable probe oom st dev ov)) = all_devices st /\
  log (snd (path_device_enable probe oom st dev ov)) =
    log st ++ [mk_log LOG_INFO (info_format res) [sysname dev; c_str (devnode dev)]].
Proof.
  intros Hwf Hname Hres P.
  destruct (path_device_enable probe oom st dev ov) as [r st'] eqn:H.
  pose proof (path_device_enable_spec _ _ _ _ _ Hwf H) as Hspec.
  revert H. unfold path_device_enable.
  destruct (resolve_logical_name oom ov st) as [[lname|] st1] eqn:R;
    apply resolve_logical_name_spec in R as (Es & Ep & En & El & Ec & Hov).
  2:{ destruct Hov as [-> Hoom]. destruct Hname; congruence. }
  assert (Hwf1 : wf st1) by (unfold wf; rewrite Es, En; exact Hwf).
  destruct (acquire_seat st1 lname Hwf1)
    as (seat & st2 & pre & s2 & post & -> & E2 & <- & Hpre & Ep2 & El2 & Ea2 & Ec2 & _).
  destruct (evdev_device_create probe (seat_ptr s2) (devnode dev) (sysname dev) st2)
    as [r3 st3] eqn:Hc.
  destruct (evdev_device_create_frame _ _ _ _ _ _ Hc) as (_ & El3 & _).
  destruct (seats_only_fields _ _ (libinput_seat_unref_seats_only (seat_ptr s2) st3))
    as (_ & _ & _ & _ & El4).
  assert (P2 : probe (probe_clock st2) (c_str (devnode dev)) (sysname dev) = res)
    by (rewrite Ec2, Ec; exact P).
  destruct (evdev_device_create_none _ _ _ _ _ _ Hc) as [_ Hr3].
  { rewrite P2. destruct Hres; subst res; discriminate. }
  rewrite P2 in Hr3.
  assert (Hlog : log (libinput_seat_unref (seat_ptr s2) st3) = log st) by congruence.
  destruct Hres; subst res; subst r3; intros [= <- <-];
    destruct Hspec as (_ & _ & Hseats); cbn [fst snd log log_msg info_format];
    (split; [reflexivity|]); (split; [exact Hseats|]);
    (split; [unfold all_devices; now rewrite Hseats|]); now rewrite Hlog.
Qed.


(** ** Removing one device *)

Lemma device_unlink_split l d :
  In d l -> NoDup (map ev_ptr l) ->
  exists dpre dpost,
    l = dpre ++ d :: dpost /\
    device_unlink (ev_ptr d) l = dpre ++ dpost /\
    ~ In (ev_ptr d) (map ev_ptr (dpre ++ dpost)).
Proof.
  intros Hin Hnd. apply in_split in Hin as (dpre & dpost & ->).
  destruct (NoDup_map_focus ev_ptr dpre d dpost Hnd) as [H1 H2].
  exists dpre, dpost. split; [reflexivity|]. split.
  - now apply device_unlink_focus.
  - rewrite map_app, in_app_iff. tauto.
Qed.

Lemma seat_without_ok s d :
  seat_ok s -> In d (devices_list s) ->
  Forall seat_ok (seat_without (ev_ptr d) s).
Proof.
  intros (Hnd & Hseat & Hlen & Hpos) Hin. unfold seat_without.
  destruct (Z.eqb_spec (refcount s - 1) 0); constructor; [|constructor].
  destruct (device_unlink_split _ _ Hin Hnd) as (dpre & dpost & E & -> & Hnot).
  rewrite E in *. unfold seat_ok; cbn. repeat split.
  - rewrite map_app in *. cbn in Hnd. now apply NoDup_remove_1 in Hnd.
  - apply Forall_app in Hseat as [H1 H2]. apply Forall_inv_tail in H2.
    apply Forall_app; auto.
  - rewrite length_app in *. cbn in Hlen. lia.
  - lia.
Qed.

Lemma seat_without_below n s p :
  seat_below n s -> Forall (seat_below n) (seat_without p s).
Proof.
  intros (Hp & Hd). unfold seat_without.
  destruct (Z.eqb _ _); constructor; [|constructor].
  split; cbn; [exact Hp|].
  rewrite Forall_forall in *. intros x Hx. apply Hd.
  eapply device_unlink_incl; eauto.
Qed.

Lemma all_devices_focus st pre s post :
  seat_list st = pre ++ s :: post ->
  all_devices st =
  flat_map devices_list pre ++ devices_list s ++ flat_map devices_list post.
Proof.
  intros E. unfold all_devices. now rewrite E, flat_map_app.
Qed.

Lemma all_devices_replace st pre X post :
  seat_list st = pre ++ X ++ post ->
  all_devices st =
  flat_map devices_list pre ++ flat_map devices_list X ++ flat_map devices_list post.
Proof.
  intros E. unfold all_devices. now rewrite E, !flat_map_app.
Qed.

(** A device of another seat is another device. *)
Lemma other_seat_device l p x :
  Forall seat_ok l -> ~ In p (map seat_ptr l) ->
  In x (flat_map devices_list l) -> ev_seat x <> p.
Proof.
  intros Hok Hp Hx. apply in_flat_map in Hx as (s & Hs & Hxs).
  rewrite Forall_forall in Hok. destruct (Hok s Hs) as (_ & Hseat & _).
  rewrite Forall_forall in Hseat. rewrite (Hseat x Hxs).
  intros E. apply Hp. apply in_map_iff. eauto.
Qed.

Lemma live_device_focus st d :
  wf st -> In d (all_devices st) ->
  exists pre s post,
    seat_list st = pre ++ s :: post /\ In d (devices_list s) /\
    ev_seat d = seat_ptr s /\ ~ In (seat_ptr s) (map seat_ptr pre).
Proof.
  intros Hwf Hin. apply in_flat_map in Hin as (s & Hs & Hd).
  apply in_split in Hs as (pre & post & E).
  destruct (wf_focus _ _ _ _ Hwf E) as (Hpre & _ & (_ & Hseat & _) & _).
  rewrite Forall_forall in Hseat.
  exists pre, s, post. auto.
Qed.

(** The devices left when [d] is taken off the focused seat. *)
Lemma all_devices_without st st' pre s post d :
  wf st ->
  seat_list st = pre ++ s :: post ->
  In d (devices_list s) ->
  seat_list st' = pre ++ seat_without (ev_ptr d) s ++ post ->
  forall x, In x (all_devices st') <-> In x (all_devices st) /\ x <> d.
Proof.
  intros Hwf E Hd E' x.
  destruct (wf_focus _ _ _ _ Hwf E) as (Hpre & Hpost & Hs & _).
  pose proof Hs as (Hnd & Hseat & Hlen & Hpos).
  destruct Hwf as (_ & Hok & _). rewrite E in Hok.
  apply Forall_app in Hok as [Hokpre Hokpost]. apply Forall_inv_tail in Hokpost.
  assert (Hds : ev_seat d = seat_ptr s)
    by (rewrite Forall_forall in Hseat; auto).
  rewrite (all_devices_focus _ _ _ _ E), (all_devices_replace _ _ _ _ E').
  rewrite !in_app_iff.
  assert (Hmid : In x (flat_map devices_list (seat_without (ev_ptr d) s)) <->
                 In x (devices_list s) /\ x <> d).
  { destruct (device_unlink_split _ _ Hd Hnd) as (dpre & dpost & El & Eu & Hnot).
    unfold seat_without.
    destruct (Z.eqb_spec (refcount s - 1) 0) as [E0|E0]; cbn.
    - rewrite El, length_app in Hlen. cbn in Hlen.
      destruct dpre; [|cbn in Hlen; lia]. destruct dpost; [|cbn in Hlen; lia].
      rewrite El; cbn. intuition congruence.
    - rewrite app_nil_r, Eu, El, !in_app_iff; cbn.
      split.
      + intros Hx. split; [tauto|]. intros ->. apply Hnot.
        apply in_map. rewrite in_app_iff. exact Hx.
      + intros [[H|[H|H]] Hne]; auto. congruence. }
  rewrite Hmid.
  split.
  - intros [H|[[H Hne]|H]]; split; auto.
    + intros ->. now apply (other_seat_device pre (seat_ptr s) d).
    + intros ->. now apply (other_seat_device post (seat_ptr s) d).
  - intros [[H|[H|H]] Hne]; auto.
Qed.

(** What [libinput_path_remove_device] does to a path context. *)
Lemma libinput_path_remove_device_path_list st d :
  exists st',
    libinput_path_remove_device (PathInput st) d = PathInput st' /\
    path_list st' = path_remove_scan (path_list st) (c_ptr (ev_devnode d)) /\
    next_ptr st' = next_ptr st /\ alloc_clock st' = alloc_clock st /\
    probe_clock st' = probe_clock st /\ log st' = log st.
Proof.
  eexists; split; [reflexivity|].
  match goal with |- context [libinput_seat_unref ?p ?s3] =>
    destruct (seats_only_fields _ _ (libinput_seat_unref_seats_only p s3))
      as (-> & -> & -> & -> & ->) end.
  match goal with |- context [path_disable_device ?s2 ?d] =>
    destruct (seats_only_fields _ _ (path_disable_device_seats_only s2 d))
      as (-> & -> & -> & -> & ->) end.
  cbn. auto.
Qed.

Lemma libinput_path_remove_device_seats st d st' pre s post :
  wf st ->
  seat_list st = pre ++ s :: post ->
  In d (devices_list s) ->
  libinput_path_remove_device (PathInput st) d = PathInput st' ->
  seat_list st' = pre ++ seat_without (ev_ptr d) s ++ post.
Proof.
  intros Hwf E Hd [= <-].
  destruct (wf_focus _ _ _ _ Hwf E) as (Hpre & _ & (Hnd & Hseat & Hlen & Hpos) & _).
  assert (Hds : ev_seat d = seat_ptr s)
    by (rewrite Forall_forall in Hseat; auto).
  rewrite Hds.
  set (st1 := set_path_list st _).
  assert (E1 : seat_list st1 = pre ++ s :: post) by exact E.
  pose proof (libinput_seat_ref_focus st1 _ pre s post E1 eq_refl Hpre) as E2.
  pose proof (path_disable_device_focus _ d pre _ post E2 Hpre Hds) as E3.
  specialize (E3 (in_map ev_ptr _ _ Hd)).
  unfold seat_without in E3 |- *. cbn [refcount set_refcount devices_list] in E3.
  destruct (Z.eqb_spec (refcount s + 1 - 1) 0); [lia|].
  rewrite (libinput_seat_unref_focus _ (seat_ptr s) _ _ _ E3 eq_refl Hpre).
  cbn [refcount set_refcount seat_ptr physical_name logical_name devices_list].
  replace (refcount s + 1 - 1 - 1) with (refcount s - 1) by lia.
  destruct (Z.eqb _ _); reflexivity.
Qed.

Lemma libinput_path_remove_device_wf st d st' :
  wf st -> In d (all_devices st) ->
  libinput_path_remove_device (PathInput st) d = PathInput st' ->
  wf st'.
Proof.
  intros Hwf Hin H.
  destruct (live_device_focus _ _ Hwf Hin) as (pre & s & post & E & Hd & _).
  pose proof (libinput_path_remove_device_seats _ _ _ _ _ _ Hwf E Hd H) as E'.
  destruct (libinput_path_remove_device_path_list st d) as (st'' & H' & _ & Hn & _).
  rewrite H in H'. injection H' as <-.
  destruct (wf_focus _ _ _ _ Hwf E) as (_ & _ & Hok & Hbelow).
  apply (wf_replace st st' pre s post _ Hwf E E'); [lia| | |].
  - apply seat_without_cases.
  - now apply seat_without_ok.
  - rewrite Hn. now apply seat_without_below.
Qed.



Lemma libinput_path_remove_device_devices st d st' :
  wf st -> In d (all_devices st) ->
  libinput_path_remove_device (PathInput st) d = PathInput st' ->
  forall x, In x (all_devices st') <-> In x (all_devices st) /\ x <> d.
Proof.
  intros Hwf Hin H.
  destruct (live_device_focus _ _ Hwf Hin) as (pre & s & post & E & Hd & _).
  pose proof (libinput_path_remove_device_seats _ _ _ _ _ _ Hwf E Hd H) as E'.
  apply (all_devices_without st st' pre s post d Hwf E Hd E').
Qed.


(** ** Adding a path *)

Lemma wf_same_seats st st1 :
  wf st -> seat_list st1 = seat_list st -> (next_ptr st <= next_ptr st1)%nat ->
  wf st1.
Proof.
  intros (Hnd & Hok & Hbelow) E Hn. unfold wf. rewrite E. repeat split; auto.
  eapply Forall_below_mono; eauto.
Qed.

Lemma path_create_device_unfold st path ov :
  path_create_device probe oom st path ov =
  match path_device_enable probe oom (with_new_record path st)
                           (fst (path_device_new path st)) ov with
  | (None, st2) => (None, set_path_list st2 (path_list st))
  | (Some d, st2) => (Some d, st2)
  end.
Proof.
  unfold path_create_device, with_new_record.
  assert (Hnew : path_list (snd (path_device_new path st)) = path_list st)
    by reflexivity.
  destruct (path_device_new path st) as [dev st1]. cbn [fst snd] in *.
  rewrite <- Hnew.
  pose proof (path_device_enable_path_list
                (set_path_list st1 (dev :: path_list st1)) dev ov) as Hp.
  destruct (path_device_enable probe oom _ dev ov) as [[d|] st2]; [reflexivity|].
  cbn [snd] in Hp. rewrite Hp. cbn. now rewrite Nat.eqb_refl.
Qed.

Lemma path_create_device_spec st path ov r st' :
  wf st ->
  path_create_device probe oom st path ov = (r, st') ->
  wf st' /\ (next_ptr st <= next_ptr st')%nat /\
  exists st2,
    path_device_enable probe oom (with_new_record path st)
                       (fst (path_device_new path st)) ov = (r, st2) /\
    seat_list st' = seat_list st2 /\
    match r with
    | None => path_list st' = path_list st /\ seat_list st' = seat_list st
    | Some d => st' = st2 /\ path_list st' = fst (path_device_new path st) :: path_list st
    end.
Proof.
  intros Hwf. rewrite path_create_device_unfold.
  assert (Hwf1 : wf (with_new_record path st)).
  { apply (wf_same_seats st); [exact Hwf|reflexivity|simpl; lia]. }
  destruct (path_device_enable probe oom (with_new_record path st) _ ov)
    as [r2 st2] eqn:H.
  pose proof (path_device_enable_wf _ _ _ _ _ Hwf1 H) as Hwf2.
  destruct (path_device_enable_spec _ _ _ _ _ Hwf1 H) as (Hp & Hn & Hr).
  cbn [next_ptr with_new_record set_path_list snd path_device_new alloc safe_strdup] in Hn.
  destruct r2 as [d|]; intros [= <- <-].
  - split; [exact Hwf2|]. split; [simpl in Hn; lia|].
    exists st2. repeat split. exact Hp.
  - split; [|split; [simpl in *; lia|]].
    + apply (wf_same_seats st2); [exact Hwf2|reflexivity|reflexivity].
    + exists st2. repeat split. exact Hr.
Qed.

(** C6. [libinput_path_add_device] on a path context links a record for
    the path at the head of the registry, then enables it in that
    context; when the enable gives no device, the call returns no device
    and the path registry is the registry before the call.  (When it
    gives one, the record stays, at the head.) *)
Theorem libinput_path_add_device_rolls_back st path :
  exists dev st1 r st2 st',
    path_list st1 = dev :: path_list st /\ c_str (devnode dev) = path /\
    path_device_enable probe oom st1 dev None = (r, st2) /\
    libinput_path_add_device probe oom (PathInput st) path = (r, PathInput st') /\
    match r with
    | None => path_list st' = path_list st
    | Some _ => st' = st2 /\ path_list st' = dev :: path_list st
    end.
Proof.
  exists (fst (path_device_new path st)), (with_new_record path st).
  unfold libinput_path_add_device. rewrite path_create_device_unfold.
  pose proof (path_device_enable_path_list (with_new_record path st)
                (fst (path_device_new path st)) None) as Hp.
  destruct (path_device_enable probe oom (with_new_record path st) _ None)
    as [[d|] st2].
  - exists (Some d), st2, st2. repeat split. exact Hp.
  - exists None, st2, (set_path_list st2 (path_list st)). repeat split.
Qed.

(** ** The short name *)






(** ** Where an enabled device lands *)

Lemma path_device_enable_attached st dev ov d st' :
  wf st ->
  path_device_enable probe oom st dev ov = (Some d, st') ->
  exists s',
    seat_get_named (seat_list st') default_seat (resolved_name ov) = Some s' /\
    seat_ptr s' = ev_seat d /\
    devices_list s' = named_devices st default_seat (resolved_name ov) ++ [d].
Proof.
  intros Hwf H.
  destruct (path_device_enable_spec _ _ _ _ _ Hwf H)
    as (_ & _ & _ & _ & lname & Hov & Hr).
  assert (lname = resolved_name ov) as ->
    by (destruct Hov as [->|[-> ->]]; reflexivity).
  unfold named_devices, path_seat_get_named.
  destruct (seat_get_named (seat_list st) default_seat (resolved_name ov)) as [s|].
  - destruct Hr as (pre & post & E & Hs & E' & Gpre & Hnames).
    injection Hnames as Ea Eb.
    eexists. rewrite E', (seat_get_named_app_skip _ _ _ _ Gpre). split.
    + apply seat_get_named_head; cbn; assumption.
    + cbn. auto.
  - destruct Hr as (Hs & E'). eexists. rewrite E'. split.
    + apply seat_get_named_head; reflexivity.
    + cbn. auto.
Qed.

Lemma path_device_enable_devices st dev ov r st' :
  wf st ->
  path_device_enable probe oom st dev ov = (r, st') ->
  forall x, In x (all_devices st') <->
            In x (all_devices st) \/ r = Some x.
Proof.
  intros Hwf H x.
  destruct (path_device_enable_spec _ _ _ _ _ Hwf H) as (_ & _ & Hr).
  destruct r as [d|].
  - destruct Hr as (_ & _ & lname & _ & Hr).
    destruct (seat_get_named (seat_list st) default_seat lname) as [s|].
    + destruct Hr as (pre & post & E & _ & E' & _).
      rewrite (all_devices_focus _ _ _ _ E), (all_devices_focus _ _ _ _ E').
      cbn. rewrite !in_app_iff. cbn. intuition congruence.
    + destruct Hr as (_ & E'). unfold all_devices. rewrite E'. cbn.
      intuition congruence.
  - unfold all_devices. rewrite Hr. intuition congruence.
Qed.

(** ** Changing the seat of a device *)

Lemma wf_tick_alloc st : wf st -> wf (tick_alloc st).
Proof. intros H. apply (wf_same_seats st); auto. Qed.

Lemma path_device_change_seat_oom st d name :
  oom (alloc_clock st) = true ->
  path_device_change_seat probe oom st d name = (-1, tick_alloc st).
Proof. intros H. unfold path_device_change_seat, strdup. now rewrite H. Qed.

Lemma path_device_change_seat_unfold st d name st1 :
  oom (alloc_clock st) = false ->
  libinput_path_remove_device (PathInput (tick_alloc st)) d = PathInput st1 ->
  path_device_change_seat probe oom st d name =
  (match fst (path_create_device probe oom st1 (c_str (ev_devnode d)) (Some name)) with
   | None => -1
   | Some _ => 0
   end,
   snd (path_create_device probe oom st1 (c_str (ev_devnode d)) (Some name))).
Proof.
  intros Hoom H. unfold path_device_change_seat, strdup. rewrite Hoom, H.
  now destruct (path_create_device probe oom st1 _ _).
Qed.

Lemma path_device_change_seat_wf st d name :
  wf st -> In d (all_devices st) ->
  wf (snd (path_device_change_seat probe oom st d name)).
Proof.
  intros Hwf Hin. destruct (oom (alloc_clock st)) eqn:Hoom.
  - rewrite path_device_change_seat_oom by assumption. now apply wf_tick_alloc.
  - destruct (libinput_path_remove_device_path_list (tick_alloc st) d)
      as (st1 & H & _).
    rewrite (path_device_change_seat_unfold _ _ _ _ Hoom H). cbn [snd].
    pose proof (libinput_path_remove_device_wf _ _ _ (wf_tick_alloc _ Hwf) Hin H)
      as Hwf1.
    destruct (path_create_device probe oom st1 _ _) as [r st'] eqn:Hc.
    now destruct (path_create_device_spec _ _ _ _ _ Hwf1 Hc).
Qed.

(** C2, amended.  On the handle of an enabled device, once the devnode
    string has been duplicated, [path_device_change_seat] removes the
    device as [libinput_path_remove_device] does (its record is unlinked
    and the device is disabled), then adds the same devnode string again
    with the new logical name.  It returns 0 exactly when this gave a
    device, and -1 otherwise.  With a device, the new record is the head
    of the registry and the device is on the seat named
    (seat0, new name).  Without one, the old record and the old device
    are gone and nothing stands in for them: the enabled devices are
    those of before but for the old device. *)
Theorem path_device_change_seat_moves st d name :
  wf st -> In d (all_devices st) -> oom (alloc_clock st) = false ->
  exists st1 r,
    libinput_path_remove_device (PathInput (tick_alloc st)) d = PathInput st1 /\
    path_list st1 = path_remove_scan (path_list st) (c_ptr (ev_devnode d)) /\
    (forall x, In x (all_devices st1) <-> In x (all_devices st) /\ x <> d) /\
    path_create_device probe oom st1 (c_str (ev_devnode d)) (Some name)
      = (r, snd (path_device_change_seat probe oom st d name)) /\
    (fst (path_device_change_seat probe oom st d name) = 0 <-> r <> None) /\
    (fst (path_device_change_seat probe oom st d name) = -1 <-> r = None) /\
    match r with
    | Some d' =>
        c_str (ev_devnode d') = c_str (ev_devnode d) /\
        (exists dev,
            path_list (snd (path_device_change_seat probe oom st d name))
              = dev :: path_list st1 /\
            c_str (devnode dev) = c_str (ev_devnode d)) /\
        (exists s',
            seat_get_named
              (seat_list (snd (path_device_change_seat probe oom st d name)))
              default_seat name = Some s' /\
            In d' (devices_list s')) /\
        (forall x,
            In x (all_devices (snd (path_device_change_seat probe oom st d name))) <->
            (In x (all_devices st) /\ x <> d) \/ x = d')
    | None =>
        path_list (snd (path_device_change_seat probe oom st d name))
          = path_list st1 /\
        (forall x,
            In x (all_devices (snd (path_device_change_seat probe oom st d name))) <->
            In x (all_devices st) /\ x <> d)
    end.
Proof.
  intros Hwf Hin Hoom.
  pose proof (wf_tick_alloc _ Hwf) as Hwf0.
  destruct (libinput_path_remove_device_path_list (tick_alloc st) d)
    as (st1 & H & Hp1 & _).
  pose proof (libinput_path_remove_device_devices _ _ _ Hwf0 Hin H) as Hdevs.
  pose proof (libinput_path_remove_device_wf _ _ _ Hwf0 Hin H) as Hwf1.
  rewrite (path_device_change_seat_unfold _ _ _ _ Hoom H). cbn [fst snd].
  destruct (path_create_device probe oom st1 _ _) as [r st'] eqn:Hc.
  exists st1, r. cbn [fst snd].
  change (all_devices (tick_alloc st)) with (all_devices st) in Hdevs.
  split; [exact H|]. split; [exact Hp1|]. split; [exact Hdevs|].
  split; [exact Hc|].
  destruct (path_create_device_spec _ _ _ _ _ Hwf1 Hc) as (_ & _ & st2 & He & Es & Hr).
  assert (Hwf1' : wf (with_new_record (c_str (ev_devnode d)) st1))
    by (apply (wf_same_seats st1); [exact Hwf1|reflexivity|simpl; lia]).
  pose proof (path_device_enable_devices _ _ _ _ _ Hwf1' He) as Hall.
  destruct r as [d'|].
  - split; [split; [discriminate|reflexivity]|].
    split; [split; discriminate|].
    destruct Hr as [-> Hp].
    destruct (path_device_enable_spec _ _ _ _ _ Hwf1' He) as (_ & _ & (Hfrom & _) & _).
    destruct (path_device_enable_attached _ _ _ _ _ Hwf1' He) as (s' & G & _ & Hd').
    split; [exact Hfrom|]. split; [eexists; split; [exact Hp|reflexivity]|].
    split.
    + exists s'. split; [exact G|]. rewrite Hd', in_app_iff. right; now left.
    + intros x. rewrite Hall.
      change (all_devices (with_new_record (c_str (ev_devnode d)) st1))
        with (all_devices st1).
      rewrite Hdevs. intuition congruence.
  - split; [split; [discriminate|congruence]|].
    split; [split; reflexivity|].
    destruct Hr as [Hp Hs]. split; [exact Hp|].
    intros x. unfold all_devices at 1. rewrite Hs. apply Hdevs.
Qed.

(** ** Resume *)

Lemma path_input_enable_loop_spec devs :
  forall st rc st',
    wf st ->
    path_input_enable_loop probe oom devs st = (rc, st') ->
    wf st' /\ path_list st' = path_list st /\
    ((rc = 0 /\
      exists ds,
        enable_all probe oom devs st ds st' /\
        Forall2 created_from devs ds /\
        named_devices st' default_seat default_seat_name =
          named_devices st default_seat default_seat_name ++ ds /\
        (forall x, In x (all_devices st') <-> In x (all_devices st) \/ In x ds)) \/
     (rc = -1 /\ all_devices st' = [] /\
      exists done dev rest ds st1 st2,
        devs = done ++ dev :: rest /\
        enable_all probe oom done st ds st1 /\
        path_device_enable probe oom st1 dev None = (None, st2) /\
        st' = path_input_disable st2)).
Proof.
  induction devs as [|dev next IH]; intros st rc st' Hwf; cbn [path_input_enable_loop].
  - intros [= <- <-]. split; [exact Hwf|]. split; [reflexivity|]. left.
    split; [reflexivity|]. exists []. rewrite app_nil_r.
    repeat split; try constructor; cbn; tauto.
  - destruct (path_device_enable probe oom st dev None) as [[d|] st1] eqn:He.
    + pose proof (path_device_enable_wf _ _ _ _ _ Hwf He) as Hwf1.
      pose proof (path_device_enable_path_list st dev None) as Hp1.
      rewrite He in Hp1; cbn [snd] in Hp1.
      destruct (path_device_enable_spec _ _ _ _ _ Hwf He) as (_ & _ & Hfrom & _).
      destruct (path_device_enable_attached _ _ _ _ _ Hwf He) as (s' & G & _ & Hd).
      pose proof (path_device_enable_devices _ _ _ _ _ Hwf He) as Hall.
      intros Hloop.
      destruct (IH _ _ _ Hwf1 Hloop) as (Hwf' & Hp' & Hcase).
      split; [exact Hwf'|]. split; [congruence|].
      destruct Hcase as [(-> & ds & Hrun & Hds & Hnamed & Hdevs)
                        |(-> & Hnone & done & dev' & rest & ds & sa & sb & -> & Hrun & Hfail & ->)].
      * left. split; [reflexivity|]. exists (d :: ds).
        split; [econstructor; eauto|]. split; [constructor; auto|]. split.
        -- rewrite Hnamed. unfold named_devices at 1, path_seat_get_named.
           cbn [resolved_name] in G, Hd. rewrite G, Hd, <- app_assoc. reflexivity.
        -- intros x. rewrite Hdevs, Hall. cbn. intuition congruence.
      * right. split; [reflexivity|]. split; [exact Hnone|].
        exists (dev :: done), dev', rest, (d :: ds), sa, sb.
        split; [reflexivity|]. split; [econstructor; eauto|]. auto.
    + intros [= <- <-].
      pose proof (path_device_enable_wf _ _ _ _ _ Hwf He) as Hwf1.
      pose proof (path_device_enable_path_list st dev None) as Hp1.
      rewrite He in Hp1; cbn [snd] in Hp1.
      pose proof (path_input_disable_no_devices st1 Hwf1) as Hnone.
      destruct (seats_only_fields _ _ (path_input_disable_seats_only st1))
        as (Hp & _).
      split; [now apply path_input_disable_wf|]. split; [congruence|].
      right. split; [reflexivity|]. split; [exact Hnone|].
      exists [], dev, next, [], st, st1. repeat split; try constructor; auto.
Qed.

(** C1. Resume ([path_input_enable]) from a well-formed context returns 0
    or -1 and never changes the path registry.  It returns 0 when every
    registered record, taken in registry order and enabled with no
    override, yields a device: these devices, one per record, are then
    the new last devices of the seat (seat0, default).  It returns -1
    when the enable of some record yields no device: the records before
    it were enabled, the suspend sweep ran on the context this left, and
    no device at all is enabled afterwards. *)
Theorem path_input_enable_all_or_nothing st :
  wf st ->
  path_list (snd (path_input_enable probe oom st)) = path_list st /\
  ((fst (path_input_enable probe oom st) = 0 /\
    exists ds,
      enable_all probe oom (path_list st) st ds (snd (path_input_enable probe oom st)) /\
      Forall2 created_from (path_list st) ds /\
      named_devices (snd (path_input_enable probe oom st))
                    default_seat default_seat_name =
        named_devices st default_seat default_seat_name ++ ds /\
      (forall x, In x (all_devices (snd (path_input_enable probe oom st))) <->
                 In x (all_devices st) \/ In x ds)) \/
   (fst (path_input_enable probe oom st) = -1 /\
    all_devices (snd (path_input_enable probe oom st)) = [] /\
    exists done dev rest ds st1 st2,
      path_list st = done ++ dev :: rest /\
      enable_all probe oom done st ds st1 /\
      path_device_enable probe oom st1 dev None = (None, st2) /\
      snd (path_input_enable probe oom st) = path_input_disable st2)).
Proof.
  intros Hwf. unfold path_input_enable.
  destruct (path_input_enable_loop probe oom (path_list st) st) as [rc st'] eqn:H.
  destruct (path_input_enable_loop_spec _ _ _ _ Hwf H) as (_ & Hp & Hcase).
  cbn [fst snd]. split; [exact Hp|exact Hcase].
Qed.

Lemma path_input_enable_wf st :
  wf st -> wf (snd (path_input_enable probe oom st)).
Proof.
  intros Hwf. unfold path_input_enable.
  destruct (path_input_enable_loop probe oom (path_list st) st) as [rc st'] eqn:H.
  now destruct (path_input_enable_loop_spec _ _ _ _ Hwf H).
Qed.

(** ** What every reachable context satisfies *)

Lemma swept_names s :
  swept s = [] \/ exists s', swept s = [s'] /\ seat_names s' = seat_names s.
Proof.
  unfold swept; destruct (Z.eqb _ _); [now left|right].
  eexists; split; reflexivity.
Qed.

Lemma seat_without_names p s :
  seat_without p s = [] \/
  exists s', seat_without p s = [s'] /\ seat_names s' = seat_names s.
Proof.
  unfold seat_without; destruct (Z.eqb _ _); [now left|right].
  eexists; split; reflexivity.
Qed.

Lemma flat_map_swept_names l :
  NoDup (map seat_names l) -> NoDup (map seat_names (flat_map swept l)).
Proof.
  induction l as [|s l IH]; intros Hnd; [constructor|].
  change (flat_map swept (s :: l)) with ([] ++ swept s ++ flat_map swept l).
  inversion Hnd as [|? ? Hnotin Hnd']; subst.
  apply (NoDup_map_replace seat_names [] s (flat_map swept l));
    [|apply swept_names].
  cbn. constructor; [|auto].
  intros Hin. apply Hnotin.
  clear - Hin. induction l as [|a l IH]; cbn in *; [tauto|].
  rewrite map_app, in_app_iff in Hin. destruct Hin as [H|H]; [left|right; auto].
  destruct (swept_names a) as [E|(s' & E & En)]; rewrite E in H; cbn in H; [tauto|].
  destruct H as [H|[]]. congruence.
Qed.

Lemma path_remove_scan_incl l p x : In x (path_remove_scan l p) -> In x l.
Proof.
  induction l as [|r l IH]; simpl; [tauto|].
  destruct (Nat.eqb _ _); simpl; intuition.
Qed.

Lemma inv_same_registries P st st' :
  inv P st -> wf st' ->
  seat_list st' = seat_list st -> path_list st' = path_list st ->
  inv P st'.
Proof.
  intros (_ & Hn & Hp & Hd) Hwf Es Ep. unfold inv, all_devices in *.
  rewrite Es, Ep. auto.
Qed.

Lemma path_device_enable_inv P st dev ov r st' :
  inv P st -> P (c_str (devnode dev)) ->
  path_device_enable probe oom st dev ov = (r, st') ->
  inv P st'.
Proof.
  intros (Hwf & Hn & Hp & Hd) HP H.
  pose proof (path_device_enable_wf _ _ _ _ _ Hwf H) as Hwf'.
  pose proof (path_device_enable_devices _ _ _ _ _ Hwf H) as Hall.
  destruct (path_device_enable_spec _ _ _ _ _ Hwf H) as (Ep & _ & Hr).
  split; [exact Hwf'|]. split; [|split].
  - destruct r as [d|]; [|now rewrite Hr].
    destruct Hr as (_ & _ & lname & _ & Hr).
    destruct (seat_get_named (seat_list st) default_seat lname) as [s|] eqn:G.
    + destruct Hr as (pre & post & E & _ & E' & _).
      rewrite E in Hn. rewrite E'.
      apply (NoDup_map_replace seat_names pre s post [_] Hn).
      right; eexists; split; reflexivity.
    + destruct Hr as (_ & E'). rewrite E'. cbn. constructor; [|exact Hn].
      now apply seat_get_named_None.
  - now rewrite Ep.
  - rewrite Forall_forall in *. intros x Hx. apply Hall in Hx as [Hx|Hx]; [auto|].
    subst r. destruct Hr as ((Hfrom & _) & _). now rewrite Hfrom.
Qed.

Lemma path_input_disable_inv P st : inv P st -> inv P (path_input_disable st).
Proof.
  intros (Hwf & Hn & Hp & Hd).
  pose proof (path_input_disable_seat_list st Hwf) as E.
  pose proof (path_input_disable_no_devices st Hwf) as Hnone.
  destruct (seats_only_fields _ _ (path_input_disable_seats_only st))
    as (Ep & _).
  split; [now apply path_input_disable_wf|]. split; [|split].
  - rewrite E. now apply flat_map_swept_names.
  - now rewrite Ep.
  - rewrite Hnone. constructor.
Qed.

Lemma libinput_path_remove_device_inv P st d st' :
  inv P st -> In d (all_devices st) ->
  libinput_path_remove_device (PathInput st) d = PathInput st' ->
  inv P st'.
Proof.
  intros (Hwf & Hn & Hp & Hd) Hin H.
  split; [now apply (libinput_path_remove_device_wf st d)|].
  destruct (live_device_focus _ _ Hwf Hin) as (pre & s & post & E & Hds & _).
  pose proof (libinput_path_remove_device_seats _ _ _ _ _ _ Hwf E Hds H) as E'.
  destruct (libinput_path_remove_device_path_list st d) as (st'' & H' & Ep & _).
  rewrite H in H'. injection H' as <-.
  split; [|split].
  - rewrite E in Hn. rewrite E'.
    apply (NoDup_map_replace seat_names pre s post _ Hn), seat_without_names.
  - rewrite Ep, Forall_forall in *. intros x Hx.
    apply Hp. eapply path_remove_scan_incl; eauto.
  - rewrite Forall_forall in *. intros x Hx. apply Hd.
    now apply (all_devices_without st st' pre s post d Hwf E Hds E') in Hx.
Qed.

Lemma path_create_device_inv P st path ov r st' :
  inv P st -> P path ->
  path_create_device probe oom st path ov = (r, st') ->
  inv P st'.
Proof.
  intros Hinv HP H. pose proof Hinv as (Hwf & Hn & Hp & Hd).
  destruct (path_create_device_spec _ _ _ _ _ Hwf H) as (Hwf' & _ & st2 & He & Es & Hr).
  assert (Hinv1 : inv P (with_new_record path st)).
  { split; [apply (wf_same_seats st); [exact Hwf|reflexivity|simpl; lia]|].
    split; [exact Hn|]. split; [|exact Hd].
    constructor; [exact HP|exact Hp]. }
  pose proof (path_device_enable_inv P _ (fst (path_device_new path st)) _ _ _
                Hinv1 HP He) as (_ & Hn2 & Hp2 & Hd2).
  destruct r as [d|].
  - destruct Hr as [-> _]. split; [exact Hwf'|]. split; [exact Hn2|]. split; assumption.
  - destruct Hr as [Ep _]. split; [exact Hwf'|].
    unfold all_devices in *. rewrite Es, Ep. auto.
Qed.

Lemma path_input_enable_loop_inv P devs :
  forall st, inv P st ->
             Forall (fun r => P (c_str (devnode r))) devs ->
             inv P (snd (path_input_enable_loop probe oom devs st)).
Proof.
  induction devs as [|dev next IH]; intros st Hinv Hdevs;
    cbn [path_input_enable_loop]; [exact Hinv|].
  destruct (path_device_enable probe oom st dev None) as [[d|] st1] eqn:He.
  - apply IH; [|now apply Forall_inv_tail in Hdevs].
    eapply path_device_enable_inv; eauto. now apply Forall_inv in Hdevs.
  - cbn [snd]. apply path_input_disable_inv.
    eapply path_device_enable_inv; eauto. now apply Forall_inv in Hdevs.
Qed.

Lemma path_device_change_seat_inv P st d name :
  inv P st -> In d (all_devices st) ->
  inv P (snd (path_device_change_seat probe oom st d name)).
Proof.
  intros Hinv Hin. pose proof Hinv as (Hwf & Hn & Hp & Hd).
  assert (Hinv0 : inv P (tick_alloc st))
    by (apply (inv_same_registries P st); auto using wf_tick_alloc).
  destruct (oom (alloc_clock st)) eqn:Hoom.
  - now rewrite path_device_change_seat_oom.
  - destruct (libinput_path_remove_device_path_list (tick_alloc st) d)
      as (st1 & H & _).
    rewrite (path_device_change_seat_unfold _ _ _ _ Hoom H). cbn [snd].
    pose proof (libinput_path_remove_device_inv P _ _ _ Hinv0 Hin H) as Hinv1.
    destruct (path_create_device probe oom st1 _ _) as [r st'] eqn:Hc.
    eapply path_create_device_inv; eauto.
    rewrite Forall_forall in Hd. now apply Hd.
Qed.

Lemma reachable_inv P st : reachable probe oom P st -> inv P st.
Proof.
  induction 1 as [|st path r st' _ IH HP H|st d st' _ IH Hin H
                  |st _ IH|st _ IH|st d name _ IH Hin].
  - repeat split; constructor.
  - unfold libinput_path_add_device in H.
    destruct (path_create_device probe oom st path None) as [r' st''] eqn:Hc.
    injection H as <- <-. eapply path_create_device_inv; eauto.
  - eapply libinput_path_remove_device_inv; eauto.
  - now apply path_input_disable_inv.
  - apply path_input_enable_loop_inv; [exact IH|]. apply IH.
  - now apply path_device_change_seat_inv.
Qed.

Lemma reachable_wf P st : reachable probe oom P st -> wf st.
Proof. intros H. now destruct (reachable_inv P st H). Qed.

(** C9, amended.  In every context reached with non-empty paths given
    to addDevice, every record of the path registry has a non-empty
    devnode string. *)
Theorem devnode_nonempty_when_paths_are st :
  reachable probe oom (fun path => path <> "") st ->
  Forall (fun r => c_str (devnode r) <> "") (path_list st).
Proof. intros H. now destruct (reachable_inv _ _ H) as (_ & _ & Hp & _). Qed.

End WithOracles.

(** ** The theorems at concrete contexts *)

Ltac concrete_wf st :=
  let v := eval vm_compute in st in
  change st with v;
  unfold wf, seat_ok, seat_below; cbn;
  repeat match goal with
         | |- _ /\ _ => split
         | |- NoDup _ => constructor
         | |- Forall _ _ => constructor
         | |- ~ _ => cbn; intros H; intuition discriminate
         | |- _ => reflexivity
         | |- _ => lia
         | |- _ => progress (unfold seat_ok, seat_below; cbn)
         end.

(** Resume after a suspend of two registered paths. *)
Lemma path_input_enable_all_or_nothing_witness :
  wf two_suspended /\
  path_list (snd (path_input_enable probe_always_ok never_oom two_suspended)) =
    path_list two_suspended.
Proof.
  split; [concrete_wf two_suspended|].
  apply (path_input_enable_all_or_nothing probe_always_ok never_oom two_suspended).
  concrete_wf two_suspended.
Defined.

(** Suspend with two devices on one seat. *)
Lemma path_input_disable_disables_everything_witness :
  wf two_enabled /\ all_devices (path_input_disable two_enabled) = [].
Proof.
  split; [concrete_wf two_enabled|].
  apply (path_input_disable_disables_everything two_enabled).
  concrete_wf two_enabled.
Defined.


(** Moving the device of /dev/input/event3 to the logical seat alt. *)
Lemma path_device_change_seat_moves_witness :
  wf event3_enabled /\ In event3_device (all_devices event3_enabled) /\
  never_oom (alloc_clock event3_enabled) = false /\
  (fst (path_device_change_seat probe_always_ok never_oom
          event3_enabled event3_device "alt") = 0 \/
   fst (path_device_change_seat probe_always_ok never_oom
          event3_enabled event3_device "alt") = -1).
Proof.
  split; [concrete_wf event3_enabled|]. split; [left; reflexivity|].
  split; [reflexivity|].
  destruct (path_device_change_seat_moves probe_always_ok never_oom
              event3_enabled event3_device "alt")
    as (st1 & r & _ & _ & _ & _ & H0 & H1 & _).
  - concrete_wf event3_enabled.
  - left; reflexivity.
  - reflexivity.
  - destruct r as [d'|].
    + left. apply H0. discriminate.
    + right. apply H1. reflexivity.
Defined.

(** C2 as stated fails when the devnode string cannot be duplicated:
    [path_device_change_seat] returns -1 and the device is still enabled,
    its record still registered. *)
Lemma path_device_change_seat_out_of_memory :
  wf event3_enabled /\ In event3_device (all_devices event3_enabled) /\
  fst (path_device_change_seat probe_always_ok always_oom
         event3_enabled event3_device "alt") = -1 /\
  In event3_device
     (all_devices (snd (path_device_change_seat probe_always_ok always_oom
                          event3_enabled event3_device "alt"))) /\
  path_list (snd (path_device_change_seat probe_always_ok always_oom
                    event3_enabled event3_device "alt"))
    = path_list event3_enabled.
Proof.
  split; [concrete_wf event3_enabled|]. split; [left; reflexivity|].
  split; [reflexivity|]. split; [left; reflexivity|reflexivity].
Qed.

(** A record for /dev/null that the adapter does not handle. *)
Lemma path_device_enable_unhandled_is_not_an_error_witness :
  wf (with_new_record "/dev/null" initial_context) /\
  fst (path_device_enable probe_unhandled never_oom
         (with_new_record "/dev/null" initial_context)
         (fst (path_device_new "/dev/null" initial_context)) None) = None.
Proof.
  split; [concrete_wf (with_new_record "/dev/null" initial_context)|].
  apply (path_device_enable_unhandled_is_not_an_error probe_unhandled never_oom
           (with_new_record "/dev/null" initial_context)
           (fst (path_device_new "/dev/null" initial_context)) None
           PROBE_UNHANDLED).
  - concrete_wf (with_new_record "/dev/null" initial_context).
  - right; reflexivity.
  - left; reflexivity.
  - reflexivity.
Defined.

Lemma event3_enabled_reachable ok_path :
  ok_path "/dev/input/event3" ->
  reachable probe_always_ok never_oom ok_path event3_enabled.
Proof.
  intros Hok.
  apply (reach_add _ _ _ initial_context "/dev/input/event3" (Some event3_device));
    [constructor|exact Hok|reflexivity].
Qed.


(** The registry of the context with /dev/input/event3. *)
Lemma devnode_nonempty_when_paths_are_witness :
  reachable probe_always_ok never_oom (fun path => path <> "") event3_enabled /\
  Forall (fun r => c_str (devnode r) <> "") (path_list event3_enabled).
Proof.
  split; [apply event3_enabled_reachable; discriminate|].
  apply (devnode_nonempty_when_paths_are probe_always_ok never_oom event3_enabled).
  apply event3_enabled_reachable; discriminate.
Defined.

(** C9 as stated fails: addDevice of the empty path, with an adapter that
    makes a device of it, leaves a record with an empty devnode in the
    registry of a reachable context. *)
Lemma empty_devnode_is_registered :
  ~ (forall st,
        reachable probe_always_ok never_oom (fun _ => True) st ->
        Forall (fun r => c_str (devnode r) <> "") (path_list st)).
Proof.
  intros H.
  assert (Hreach : reachable probe_always_ok never_oom (fun _ => True)
                             empty_path_enabled).
  { eapply (reach_add _ _ _ initial_context "" _);
      [constructor|exact I|reflexivity]. }
  specialize (H _ Hreach). apply Forall_inv in H. now apply H.
Qed.

(** * Further properties of path-seat.c *)

(** ** Seat lookup and seat creation *)

Lemma NoDup_names_focus pre (s : libinput_seat) post :
  NoDup (map seat_names (pre ++ s :: post)) ->
  ~ In (seat_names s) (map seat_names pre).
Proof.
  rewrite map_app; simpl; intros H. apply NoDup_remove_2 in H.
  intro; apply H; apply in_or_app; auto.
Qed.

Lemma seat_get_named_own l s :
  In s l -> NoDup (map seat_names l) ->
  seat_get_named l (physical_name s) (logical_name s) = Some s.
Proof.
  intros Hin Hnd. apply in_split in Hin as (pre & post & ->).
  apply NoDup_names_focus in Hnd.
  rewrite seat_get_named_app_skip.
  - now apply seat_get_named_head.
  - now apply seat_get_named_None.
Qed.

(** X1. [path_seat_get_named] answers with the first seat of the registry
    that has both names, and with nothing exactly when no seat has them;
    where the pairs of names are distinct, every registered seat is the
    answer for its own names. *)
Theorem path_seat_get_named_finds_the_seat st a b :
  (path_seat_get_named st a b = None <->
   forall s, In s (seat_list st) -> seat_names s <> (a, b)) /\
  (forall s,
      path_seat_get_named st a b = Some s ->
      exists pre post,
        seat_list st = pre ++ s :: post /\ seat_names s = (a, b) /\
        forall x, In x pre -> seat_names x <> (a, b)) /\
  (forall s,
      In s (seat_list st) -> NoDup (map seat_names (seat_list st)) ->
      path_seat_get_named st (physical_name s) (logical_name s) = Some s).
Proof.
  unfold path_seat_get_named. split; [|split].
  - rewrite seat_get_named_None. split.
    + intros H s Hs E. apply H. rewrite <- E. now apply in_map.
    + intros H Hin. apply in_map_iff in Hin as (s & E & Hs). now apply (H s).
  - intros s H.
    destruct (seat_get_named_split _ _ _ _ H) as (pre & post & E & Hpre & Ea & Eb).
    exists pre, post. split; [exact E|]. split.
    + unfold seat_names. now rewrite Ea, Eb.
    + intros x Hx Ex. apply seat_get_named_None in Hpre. apply Hpre.
      rewrite <- Ex. now apply in_map.
  - intros s. apply seat_get_named_own.
Qed.

Section MoreProperties.

Variable probe : nat -> string -> string -> probe_result.
Variable oom : nat -> bool.

(** ** When enabling yields a device, and what it logs *)

Lemma enable_acquire_frame st1 a b :
  let acq := match path_seat_get_named st1 a b with
             | Some s => (seat_ptr s, libinput_seat_ref (seat_ptr s) st1)
             | None => path_seat_create a b st1
             end in
  probe_clock (snd acq) = probe_clock st1 /\ log (snd acq) = log st1 /\
  alloc_clock (snd acq) = alloc_clock st1.
Proof. cbn zeta. destruct (path_seat_get_named st1 a b); cbn; auto. Qed.

(** The result and the log of [path_device_enable], case by case. *)
Lemma path_device_enable_outcome st dev ov :
  match resolve_logical_name oom ov st with
  | (None, _) =>
      fst (path_device_enable probe oom st dev ov) = None /\
      log (snd (path_device_enable probe oom st dev ov)) =
        log st ++ [mk_log LOG_ERROR
                     "%s: failed to create seat name for device '%s'.\n"
                     [sysname dev; c_str (devnode dev)]] /\
      probe_clock (snd (path_device_enable probe oom st dev ov)) = probe_clock st
  | (Some _, _) =>
      probe_clock (snd (path_device_enable probe oom st dev ov)) = S (probe_clock st) /\
      match probe (probe_clock st) (c_str (devnode dev)) (sysname dev) with
      | PROBE_OK _ =>
          (exists d, fst (path_device_enable probe oom st dev ov) = Some d) /\
          log (snd (path_device_enable probe oom st dev ov)) = log st
      | res =>
          fst (path_device_enable probe oom st dev ov) = None /\
          log (snd (path_device_enable probe oom st dev ov)) =
            log st ++ [mk_log LOG_INFO (info_format res)
                         [sysname dev; c_str (devnode dev)]]
      end
  end.
Proof.
  unfold path_device_enable.
  destruct (resolve_logical_name oom ov st) as [[lname|] st1] eqn:R;
    apply resolve_logical_name_spec in R as (_ & _ & _ & El & Ec & _).
  2:{ cbn. now rewrite El, Ec. }
  pose proof (enable_acquire_frame st1 default_seat lname) as Hacq. cbn zeta in Hacq.
  destruct (match path_seat_get_named st1 default_seat lname with
            | Some s => (seat_ptr s, libinput_seat_ref (seat_ptr s) st1)
            | None => path_seat_create default_seat lname st1
            end) as [seat st2].
  cbn [snd] in Hacq. destruct Hacq as (Ec2 & El2 & _).
  destruct (evdev_device_create probe seat (devnode dev) (sysname dev) st2)
    as [r3 st3] eqn:Hc.
  destruct (evdev_device_create_frame _ _ _ _ _ _ _ Hc) as (_ & El3 & _ & Ec3 & _).
  destruct (seats_only_fields _ _ (libinput_seat_unref_seats_only seat st3))
    as (_ & _ & _ & Ec4 & El4).
  revert Hc. unfold evdev_device_create. rewrite Ec2, Ec.
  destruct (probe (probe_clock st) (c_str (devnode dev)) (sysname dev)) as [| |own].
  - intros [= <- <-]. cbn. rewrite El4, Ec4. cbn. rewrite El2, El, Ec2, Ec. auto.
  - intros [= <- <-]. cbn. rewrite El4, Ec4. cbn. rewrite El2, El, Ec2, Ec. auto.
  - intros Hc.
    assert (exists d, r3 = EVDEV_DEVICE d) as [d ->].
    { destruct own; cbn in Hc; injection Hc as <- _; eauto. }
    cbn [fst snd]. split; [congruence|]. split; [eauto|congruence].
Qed.

Lemma path_device_enable_some_iff st dev ov :
  fst (path_device_enable probe oom st dev ov) <> None <->
  (ov <> None \/ oom (alloc_clock st) = false) /\
  exists own,
    probe (probe_clock st) (c_str (devnode dev)) (sysname dev) = PROBE_OK own.
Proof.
  pose proof (path_device_enable_outcome st dev ov) as H.
  destruct (resolve_logical_name oom ov st) as [[lname|] st1] eqn:R;
    apply resolve_logical_name_spec in R as (_ & _ & _ & _ & _ & Hov).
  - destruct H as (_ & H).
    assert (Hname : ov <> None \/ oom (alloc_clock st) = false).
    { destruct Hov as [->|(_ & _ & Hoom)]; [left; discriminate|now right]. }
    destruct (probe (probe_clock st) (c_str (devnode dev)) (sysname dev)) as [| |own].
    + destruct H as (-> & _). split; [congruence|]. intros (_ & own & E). discriminate.
    + destruct H as (-> & _). split; [congruence|]. intros (_ & own & E). discriminate.
    + destruct H as ((d & ->) & _). split; [eauto|discriminate].
  - destruct H as (-> & _). destruct Hov as (-> & Hoom).
    split; [congruence|]. intros ([H|H] & _); congruence.
Qed.

(** X3. [path_device_enable] yields a device exactly when the logical seat
    name is there (an override was given, or the default name could be
    duplicated) and the adapter makes a device of the record's node; this
    does not depend on the seats registered.  [libinput_path_add_device]
    on a path context yields one exactly when the default name can be
    duplicated and the adapter makes a device of the path. *)
Theorem path_device_enable_yields_a_device_iff st dev ov path :
  (fst (path_device_enable probe oom st dev ov) <> None <->
   (ov <> None \/ oom (alloc_clock st) = false) /\
   exists own,
     probe (probe_clock st) (c_str (devnode dev)) (sysname dev) = PROBE_OK own) /\
  (fst (libinput_path_add_device probe oom (PathInput st) path) <> None <->
   oom (alloc_clock st) = false /\
   exists own, probe (probe_clock st) path (sysname_of path) = PROBE_OK own).
Proof.
  split; [apply path_device_enable_some_iff|].
  unfold libinput_path_add_device. rewrite path_create_device_unfold.
  pose proof (path_device_enable_some_iff (with_new_record path st)
                (fst (path_device_new path st)) None) as Henable.
  cbn [with_new_record set_path_list alloc_clock probe_clock snd fst path_device_new
       alloc safe_strdup devnode c_str sysname] in Henable.
  match goal with |- fst ?X <> None <-> _ =>
    assert (Hfst : fst X = fst (path_device_enable probe oom (with_new_record path st)
                                  (fst (path_device_new path st)) None))
      by (destruct (path_device_enable probe oom (with_new_record path st) _ None)
            as [[d|] st2]; reflexivity) end.
  rewrite Hfst, Henable. intuition congruence.
Qed.

Lemma path_device_enable_log_grows st dev ov :
  (fst (path_device_enable probe oom st dev ov) <> None ->
   log (snd (path_device_enable probe oom st dev ov)) = log st) /\
  (fst (path_device_enable probe oom st dev ov) = None ->
   exists e, log (snd (path_device_enable probe oom st dev ov)) = log st ++ [e]).
Proof.
  pose proof (path_device_enable_outcome st dev ov) as H.
  destruct (resolve_logical_name oom ov st) as [[lname|] st1].
  - destruct H as (_ & H).
    destruct (probe (probe_clock st) (c_str (devnode dev)) (sysname dev)) as [| |own];
      destruct H as (H1 & H2).
    3:{ destruct H1 as (d & H1). split; [auto|congruence]. }
    all: split; [congruence|eauto].
  - destruct H as (Hnone & Hlog & _). split; [congruence|eauto].
Qed.

(** X4. [path_device_enable] logs nothing when it yields a device and
    exactly one message, naming the record's short name and devnode, when
    it yields none.  The message has error priority exactly when the
    default seat name could not be duplicated, and exactly then the
    adapter is not consulted; otherwise it has informational priority. *)
Theorem path_device_enable_logs_once st dev ov :
  (fst (path_device_enable probe oom st dev ov) <> None ->
   log (snd (path_device_enable probe oom st dev ov)) = log st) /\
  (fst (path_device_enable probe oom st dev ov) = None ->
   exists e,
     log (snd (path_device_enable probe oom st dev ov)) = log st ++ [e] /\
     log_args e = [sysname dev; c_str (devnode dev)] /\
     (log_prio e = LOG_ERROR \/ log_prio e = LOG_INFO) /\
     (log_prio e = LOG_ERROR <-> ov = None /\ oom (alloc_clock st) = true)) /\
  (probe_clock (snd (path_device_enable probe oom st dev ov)) = probe_clock st <->
   ov = None /\ oom (alloc_clock st) = true).
Proof.
  pose proof (path_device_enable_outcome st dev ov) as H.
  destruct (resolve_logical_name oom ov st) as [[lname|] st1] eqn:R;
    apply resolve_logical_name_spec in R as (_ & _ & _ & _ & _ & Hov).
  - destruct H as (Hclock & H).
    assert (Hname : ~ (ov = None /\ oom (alloc_clock st) = true)).
    { destruct Hov as [->|(_ & _ & Hoom)]; intros [? ?]; congruence. }
    split; [|split].
    + destruct (probe _ _ _); destruct H as (H1 & H2); [congruence|congruence|auto].
    + intros Hnone.
      destruct (probe (probe_clock st) (c_str (devnode dev)) (sysname dev)) as [| |own];
        destruct H as (H1 & H2).
      3:{ destruct H1 as (d & H1). congruence. }
      all: eexists; split; [exact H2|]; split; [reflexivity|]; split; [now right|].
      all: cbn; split; [discriminate|tauto].
    + rewrite Hclock. split; [intros E; exfalso; lia|tauto].
  - destruct H as (Hnone & Hlog & Hclock). destruct Hov as (-> & Hoom).
    split; [congruence|]. split; [|tauto].
    intros _. eexists. split; [exact Hlog|]. split; [reflexivity|].
    split; [now left|]. cbn; tauto.
Qed.

(** ** Seat identity *)

(** C4. In every reachable context no two seats have the same pair
    (physical name, logical name).  There, whenever the logical name is
    available and the adapter makes a device of the record's node,
    [path_device_enable] yields a device made from the record, which is
    enabled afterwards, and the pairs stay distinct.  If a seat is
    registered under the resolved pair, the device is attached to that
    seat: the registry keeps its seats, that seat has one more reference
    and the device is its new last device.  If none is, a new seat of that
    pair, holding the device alone with one reference, is the head of the
    registry.  Nothing else makes [path_device_enable] yield a device. *)
Theorem seat_identity_is_unique ok_path st :
  reachable probe oom ok_path st ->
  NoDup (map seat_names (seat_list st)) /\
  (forall dev ov own,
      ov <> None \/ oom (alloc_clock st) = false ->
      probe (probe_clock st) (c_str (devnode dev)) (sysname dev) = PROBE_OK own ->
      exists d st',
        path_device_enable probe oom st dev ov = (Some d, st') /\
        created_from dev d /\ In d (all_devices st') /\
        NoDup (map seat_names (seat_list st')) /\
        match path_seat_get_named st default_seat (resolved_name ov) with
        | Some s =>
            ev_seat d = seat_ptr s /\
            map seat_names (seat_list st') = map seat_names (seat_list st) /\
            exists pre post,
              seat_list st = pre ++ s :: post /\
              seat_list st' =
                pre ++ mk_seat (seat_ptr s) (physical_name s) (logical_name s)
                               (refcount s + 1) (devices_list s ++ [d]) :: post
        | None =>
            ~ In (default_seat, resolved_name ov) (map seat_names (seat_list st)) /\
            seat_list st' =
              mk_seat (ev_seat d) default_seat (resolved_name ov) 1 [d] :: seat_list st
        end) /\
  (forall dev ov d st',
      path_device_enable probe oom st dev ov = (Some d, st') ->
      (ov <> None \/ oom (alloc_clock st) = false) /\
      exists own,
        probe (probe_clock st) (c_str (devnode dev)) (sysname dev) = PROBE_OK own).
Proof.
  intros Hreach. pose proof (reachable_inv probe oom _ _ Hreach) as (Hwf & Hn & _).
  split; [exact Hn|]. split.
  - intros dev ov own Hname Hp.
    destruct (path_device_enable probe oom st dev ov) as [r st'] eqn:He.
    assert (Hsome : r <> None).
    { pose proof (path_device_enable_some_iff st dev ov) as Hiff.
      rewrite He in Hiff. cbn [fst] in Hiff. apply Hiff. eauto. }
    destruct r as [d|]; [clear Hsome|contradiction].
    exists d, st'. split; [reflexivity|].
    pose proof (path_device_enable_devices _ _ _ _ _ _ _ Hwf He) as Hall.
    destruct (path_device_enable_spec _ _ _ _ _ _ _ Hwf He)
      as (_ & _ & Hfrom & _ & lname & Hov & Hr).
    split; [exact Hfrom|]. split; [apply Hall; now right|].
    assert (lname = resolved_name ov) as ->
      by (destruct Hov as [->|[-> ->]]; reflexivity).
    unfold path_seat_get_named.
    destruct (seat_get_named (seat_list st) default_seat (resolved_name ov))
      as [s|] eqn:G.
    + destruct Hr as (pre & post & E & Hs & E' & _).
      assert (En : map seat_names (seat_list st') = map seat_names (seat_list st))
        by (rewrite E, E', !map_app; reflexivity).
      split; [now rewrite En|]. split; [exact Hs|]. split; [exact En|].
      exists pre, post. auto.
    + destruct Hr as (_ & E'). apply seat_get_named_None in G.
      split; [|split; [exact G|exact E']].
      rewrite E'. cbn. now constructor.
  - intros dev ov d st' He.
    apply (path_device_enable_some_iff st dev ov). rewrite He. discriminate.
Qed.

(** ** Proving an invariant of the reachable contexts *)

(** An invariant holds of every reachable context when it holds of a fresh
    one and is kept by the steps the operations are made of: linking a
    record, enabling a registered record, unlinking the head record, the
    suspend sweep, removing an enabled device, and a counted [strdup]. *)
Lemma reachable_ind_steps (I : path_input -> Prop) (P : string -> Prop) :
  I initial_context ->
  (forall st path, wf st -> I st -> P path -> I (with_new_record path st)) ->
  (forall st dev ov r st',
      wf st -> I st -> In dev (path_list st) ->
      path_device_enable probe oom st dev ov = (r, st') -> I st') ->
  (forall st dev rest,
      wf st -> I st -> path_list st = dev :: rest -> I (set_path_list st rest)) ->
  (forall st, wf st -> I st -> I (path_input_disable st)) ->
  (forall st d st',
      wf st -> I st -> In d (all_devices st) ->
      libinput_path_remove_device (PathInput st) d = PathInput st' -> I st') ->
  (forall st, wf st -> I st -> I (tick_alloc st)) ->
  forall st, reachable probe oom P st -> I st.
Proof.
  intros Hinit Hnew Henable Hunlink Hdisable Hremove Htick.
  assert (Hcreate : forall st path ov r st',
             wf st -> I st -> P path ->
             path_create_device probe oom st path ov = (r, st') -> I st').
  { intros st path ov r st' Hwf HI HP. rewrite path_create_device_unfold.
    assert (Hwf1 : wf (with_new_record path st))
      by (apply (wf_same_seats st); [exact Hwf|reflexivity|simpl; lia]).
    pose proof (path_device_enable_path_list probe oom (with_new_record path st)
                  (fst (path_device_new path st)) ov) as Hp.
    destruct (path_device_enable probe oom (with_new_record path st) _ ov)
      as [[d|] st2] eqn:He; intros [= <- <-]; cbn [snd] in Hp.
    - eapply Henable; [exact Hwf1|now apply Hnew|left; reflexivity|exact He].
    - eapply Hunlink; [|eapply Henable; [exact Hwf1|now apply Hnew|left; reflexivity|exact He]|exact Hp].
      eapply path_device_enable_wf; eauto. }
  assert (Hloop : forall devs st,
             wf st -> I st -> incl devs (path_list st) ->
             I (snd (path_input_enable_loop probe oom devs st))).
  { induction devs as [|dev next IH]; intros st Hwf HI Hincl;
      cbn [path_input_enable_loop]; [exact HI|].
    pose proof (path_device_enable_path_list probe oom st dev None) as Hp.
    destruct (path_device_enable probe oom st dev None) as [[d|] st1] eqn:He;
      cbn [snd] in Hp.
    - apply IH.
      + eapply path_device_enable_wf; eauto.
      + eapply Henable; eauto. apply Hincl; now left.
      + rewrite Hp. intros x Hx. apply Hincl; now right.
    - cbn [snd]. apply Hdisable.
      + eapply path_device_enable_wf; eauto.
      + eapply Henable; eauto. apply Hincl; now left. }
  intros st Hreach.
  induction Hreach as [|st path r st' Hreach IH HP H|st d st' Hreach IH Hin H
                       |st Hreach IH|st Hreach IH|st d name Hreach IH Hin];
    try (pose proof (reachable_inv probe oom P st Hreach) as (Hwf & _ & _ & Hdevs)).
  - exact Hinit.
  - unfold libinput_path_add_device in H.
    destruct (path_create_device probe oom st path None) as [r' st''] eqn:Hc.
    injection H as <- <-. eapply Hcreate; eauto.
  - eapply Hremove; eauto.
  - now apply Hdisable.
  - apply Hloop; [exact Hwf|exact IH|apply incl_refl].
  - destruct (oom (alloc_clock st)) eqn:Hoom.
    + rewrite path_device_change_seat_oom by assumption. now apply Htick.
    + destruct (libinput_path_remove_device_path_list (tick_alloc st) d)
        as (st1 & H & _).
      rewrite (path_device_change_seat_unfold _ _ _ _ _ _ Hoom H). cbn [snd].
      pose proof (wf_tick_alloc _ Hwf) as Hwf0.
      destruct (path_create_device probe oom st1 _ _) as [r st'] eqn:Hc.
      eapply Hcreate; [| | |exact Hc].
      * eapply libinput_path_remove_device_wf; eauto.
      * eapply Hremove; [exact Hwf0|now apply Htick|exact Hin|exact H].
      * rewrite Forall_forall in Hdevs. now apply Hdevs.
Qed.

(** The same for an invariant of the seat registry alone. *)
Lemma reachable_seats_ind (J : list libinput_seat -> Prop) (P : string -> Prop) :
  J [] ->
  (forall st dev ov r st',
      wf st -> J (seat_list st) ->
      path_device_enable probe oom st dev ov = (r, st') -> J (seat_list st')) ->
  (forall st, wf st -> J (seat_list st) -> J (seat_list (path_input_disable st))) ->
  (forall st d st',
      wf st -> J (seat_list st) -> In d (all_devices st) ->
      libinput_path_remove_device (PathInput st) d = PathInput st' ->
      J (seat_list st')) ->
  forall st, reachable probe oom P st -> J (seat_list st).
Proof.
  intros Hinit Henable Hdisable Hremove.
  apply (reachable_ind_steps (fun st => J (seat_list st)) P); auto.
  - intros st dev ov r st' Hwf HJ _. now apply Henable.
Qed.

(** ** Seats live exactly as long as they have devices *)

Lemma counted_swept l : Forall counted l -> flat_map swept l = [].
Proof.
  induction 1 as [|s l Hs Hl IH]; [reflexivity|]. cbn. rewrite IH, app_nil_r.
  unfold swept. unfold counted in Hs. rewrite Hs, Z.sub_diag. reflexivity.
Qed.

Lemma counted_seat_without s d :
  seat_ok s -> counted s -> In d (devices_list s) ->
  Forall counted (seat_without (ev_ptr d) s).
Proof.
  intros (Hnd & _) Hc Hin. unfold seat_without.
  destruct (Z.eqb _ _); constructor; [|constructor].
  destruct (device_unlink_split _ _ Hin Hnd) as (dpre & dpost & E & Eu & _).
  unfold counted in *. cbn. rewrite Eu, Hc, E, !length_app. cbn. lia.
Qed.

Lemma reachable_counted P st :
  reachable probe oom P st -> Forall counted (seat_list st).
Proof.
  apply (reachable_seats_ind (Forall counted) P).
  - constructor.
  - intros st0 dev ov r st' Hwf HJ He.
    destruct (path_device_enable_spec _ _ _ _ _ _ _ Hwf He) as (_ & _ & Hr).
    destruct r as [d|]; [|now rewrite Hr].
    destruct Hr as (_ & _ & lname & _ & Hr).
    destruct (seat_get_named (seat_list st0) default_seat lname) as [s|].
    + destruct Hr as (pre & post & E & _ & E' & _). rewrite E in HJ. rewrite E'.
      apply Forall_app in HJ as [H1 H2].
      pose proof (Forall_inv H2) as Hs. apply Forall_inv_tail in H2.
      apply Forall_app; split; [exact H1|]. constructor; [|exact H2].
      unfold counted in *. cbn. rewrite length_app. cbn. lia.
    + destruct Hr as (_ & E'). rewrite E'. constructor; [reflexivity|exact HJ].
  - intros st0 Hwf HJ. rewrite (path_input_disable_seat_list st0 Hwf).
    rewrite (counted_swept _ HJ). constructor.
  - intros st0 d st' Hwf HJ Hin H.
    destruct (live_device_focus _ _ Hwf Hin) as (pre & s & post & E & Hd & _).
    rewrite (libinput_path_remove_device_seats _ _ _ _ _ _ Hwf E Hd H).
    destruct (wf_focus _ _ _ _ Hwf E) as (_ & _ & Hok & _).
    rewrite E in HJ. apply Forall_app in HJ as [H1 H2].
    pose proof (Forall_inv H2) as Hs. apply Forall_inv_tail in H2.
    repeat (apply Forall_app; split); auto using counted_seat_without.
Qed.

(** X5. In every reachable context the reference count of every seat is
    the number of its devices, and every registered seat has a device:
    a seat is linked with its first device and unlinked with its last. *)
Theorem seat_refcount_counts_devices P st :
  reachable probe oom P st ->
  Forall (fun s => refcount s = Z.of_nat (length (devices_list s)) /\
                   devices_list s <> [])
         (seat_list st).
Proof.
  intros Hreach.
  pose proof (reachable_counted P st Hreach) as Hc.
  destruct (reachable_wf probe oom P st Hreach) as (_ & Hok & _).
  rewrite Forall_forall in *. intros s Hs.
  specialize (Hc s Hs). destruct (Hok s Hs) as (_ & _ & _ & Hpos).
  split; [exact Hc|]. unfold counted in Hc. intros E. rewrite E in Hc. cbn in Hc. lia.
Qed.

(** X6. Suspend in a reachable context unlinks every seat: the seat
    registry is empty afterwards, so no seat is found under any names,
    while the path registry is what it was. *)
Theorem path_input_disable_empties_seat_registry P st :
  reachable probe oom P st ->
  seat_list (path_input_disable st) = [] /\
  (forall a b, path_seat_get_named (path_input_disable st) a b = None) /\
  path_list (path_input_disable st) = path_list st.
Proof.
  intros Hreach.
  pose proof (reachable_wf probe oom P st Hreach) as Hwf.
  assert (E : seat_list (path_input_disable st) = []).
  { rewrite (path_input_disable_seat_list st Hwf).
    apply counted_swept, (reachable_counted P), Hreach. }
  split; [exact E|]. split.
  - intros a b. unfold path_seat_get_named. now rewrite E.
  - apply (seats_only_fields _ _ (path_input_disable_seats_only st)).
Qed.

(** ** Seat names *)

Lemma reachable_seat_names (Q : string * string -> Prop) P st :
  (forall lname, Q (default_seat, lname)) ->
  reachable probe oom P st ->
  Forall (fun s => Q (seat_names s)) (seat_list st).
Proof.
  intros HQ.
  apply (reachable_seats_ind (Forall (fun s => Q (seat_names s))) P).
  - constructor.
  - intros st0 dev ov r st' Hwf HJ He.
    destruct (path_device_enable_spec _ _ _ _ _ _ _ Hwf He) as (_ & _ & Hr).
    destruct r as [d|]; [|now rewrite Hr].
    destruct Hr as (_ & _ & lname & _ & Hr).
    destruct (seat_get_named (seat_list st0) default_seat lname) as [s|].
    + destruct Hr as (pre & post & E & _ & E' & _). rewrite E in HJ. rewrite E'.
      apply Forall_app in HJ as [H1 H2].
      pose proof (Forall_inv H2) as Hs. apply Forall_inv_tail in H2.
      apply Forall_app; split; [exact H1|]. constructor; [exact Hs|exact H2].
    + destruct Hr as (_ & E'). rewrite E'. constructor; [apply HQ|exact HJ].
  - intros st0 Hwf HJ. rewrite (path_input_disable_seat_list st0 Hwf).
    eapply Forall_flat_map_intro; [|exact HJ].
    intros s Hs. destruct (swept_names s) as [->|(s' & -> & En)];
      constructor; [now rewrite En|constructor].
  - intros st0 d st' Hwf HJ Hin H.
    destruct (live_device_focus _ _ Hwf Hin) as (pre & s & post & E & Hd & _).
    rewrite (libinput_path_remove_device_seats _ _ _ _ _ _ Hwf E Hd H).
    rewrite E in HJ. apply Forall_app in HJ as [H1 H2].
    pose proof (Forall_inv H2) as Hs. apply Forall_inv_tail in H2.
    repeat (apply Forall_app; split); auto.
    destruct (seat_without_names (ev_ptr d) s) as [->|(s' & -> & En)];
      constructor; [now rewrite En|constructor].
Qed.

(** X7. The path backend reads no seat property: in every reachable
    context every seat has the physical name seat0, so a lookup under
    another physical name finds nothing. *)
Theorem every_seat_is_on_seat0 P st :
  reachable probe oom P st ->
  Forall (fun s => physical_name s = default_seat) (seat_list st) /\
  (forall a b, a <> default_seat -> path_seat_get_named st a b = None).
Proof.
  intros Hreach.
  pose proof (reachable_seat_names (fun n => fst n = default_seat) P st
                (fun _ => eq_refl) Hreach) as H.
  split; [exact H|].
  intros a b Ha. unfold path_seat_get_named. apply seat_get_named_None.
  intros Hin. apply in_map_iff in Hin as (s & E & Hs).
  rewrite Forall_forall in H. specialize (H s Hs). rewrite E in H. cbn in H.
  congruence.
Qed.

(** ** Removing devices one by one *)

(** X8. Removing a device in a reachable context: when it was the only
    device of its seat, the seat is unlinked and its names find nothing
    afterwards; when the seat had other devices, the seat stays under its
    names and at its address, with one reference less and the other
    devices, in their order. *)
Theorem removing_the_last_device_unlinks_the_seat P st s d st' :
  reachable probe oom P st ->
  In s (seat_list st) -> In d (devices_list s) ->
  libinput_path_remove_device (PathInput st) d = PathInput st' ->
  (devices_list s = [d] ->
   path_seat_get_named st' (physical_name s) (logical_name s) = None /\
   ~ In (seat_ptr s) (map seat_ptr (seat_list st'))) /\
  (devices_list s <> [d] ->
   exists s',
     path_seat_get_named st' (physical_name s) (logical_name s) = Some s' /\
     seat_ptr s' = seat_ptr s /\ refcount s' = refcount s - 1 /\
     devices_list s' = device_unlink (ev_ptr d) (devices_list s) /\
     forall x, In x (devices_list s') <-> In x (devices_list s) /\ x <> d).
Proof.
  intros Hreach Hs Hd H.
  pose proof (reachable_inv probe oom P st Hreach) as (Hwf & Hn & _).
  pose proof (reachable_counted P st Hreach) as Hcount.
  apply in_split in Hs as (pre & post & E).
  destruct (wf_focus _ _ _ _ Hwf E) as (Hpre & Hpost & (Hnd & _) & _).
  pose proof (libinput_path_remove_device_seats _ _ _ _ _ _ Hwf E Hd H) as E'.
  rewrite E in Hcount, Hn. apply Forall_elt in Hcount. unfold counted in Hcount.
  pose proof (NoDup_names_focus _ _ _ Hn) as Hnpre.
  assert (Hnpost : ~ In (seat_names s) (map seat_names post)).
  { rewrite map_app in Hn. cbn in Hn. apply NoDup_remove_2 in Hn.
    intro; apply Hn; apply in_or_app; auto. }
  destruct (device_unlink_split _ _ Hd Hnd) as (dpre & dpost & El & Eu & Hnot).
  unfold path_seat_get_named. rewrite E'. unfold seat_without. split.
  - intros Eone. rewrite Hcount, Eone. cbn. split.
    + apply seat_get_named_None. rewrite map_app, in_app_iff. tauto.
    + rewrite map_app, in_app_iff. tauto.
  - intros Hmany.
    destruct (Z.eqb_spec (refcount s - 1) 0) as [E0|E0].
    { exfalso. apply Hmany. rewrite El, length_app in Hcount. cbn in Hcount.
      rewrite El. destruct dpre; [|cbn in Hcount; lia].
      destruct dpost; [reflexivity|cbn in Hcount; lia]. }
    exists (mk_seat (seat_ptr s) (physical_name s) (logical_name s) (refcount s - 1)
                    (device_unlink (ev_ptr d) (devices_list s))).
    split; [|split; [reflexivity|split; [reflexivity|split; [reflexivity|]]]].
    + rewrite seat_get_named_app_skip by now apply seat_get_named_None.
      apply seat_get_named_head; reflexivity.
    + intros x. cbn. rewrite Eu, El, !in_app_iff. cbn. split.
      * intros Hx. split; [tauto|]. intros ->. apply Hnot.
        apply in_map. rewrite in_app_iff. exact Hx.
      * intros [[Hx|[Hx|Hx]] Hne]; auto. congruence.
Qed.

(** ** A failed addDevice *)

(** X9. When [libinput_path_add_device] on a well-formed path context
    yields no device, it leaves both registries as they were: no record,
    no seat and no reference stays behind, every device is the device it
    was, and exactly one message was logged. *)
Theorem failed_add_device_changes_no_registry st path st' :
  wf st ->
  libinput_path_add_device probe oom (PathInput st) path = (None, PathInput st') ->
  seat_list st' = seat_list st /\ path_list st' = path_list st /\
  all_devices st' = all_devices st /\
  exists e, log st' = log st ++ [e].
Proof.
  intros Hwf H. unfold libinput_path_add_device in H.
  destruct (path_create_device probe oom st path None) as [r st''] eqn:Hc.
  injection H as -> <-.
  destruct (path_create_device_spec _ _ _ _ _ _ _ Hwf Hc)
    as (_ & _ & st2 & He & _ & Hp & Hs).
  split; [exact Hs|]. split; [exact Hp|]. split; [unfold all_devices; now rewrite Hs|].
  rewrite path_create_device_unfold, He in Hc. injection Hc as <-.
  destruct (path_device_enable_log_grows (with_new_record path st)
              (fst (path_device_new path st)) None) as (_ & Hlog).
  rewrite He in Hlog. cbn [fst snd] in Hlog.
  destruct (Hlog eq_refl) as (e & Hl). exists e. exact Hl.
Qed.


(** ** Resume when the adapter takes every node *)

Lemma path_device_enable_count st dev ov d st' :
  wf st ->
  path_device_enable probe oom st dev ov = (Some d, st') ->
  length (all_devices st') = S (length (all_devices st)).
Proof.
  intros Hwf He.
  destruct (path_device_enable_spec _ _ _ _ _ _ _ Hwf He)
    as (_ & _ & _ & _ & lname & _ & Hr).
  destruct (seat_get_named (seat_list st) default_seat lname) as [s|].
  - destruct Hr as (pre & post & E & _ & E' & _).
    rewrite (all_devices_focus _ _ _ _ E), (all_devices_focus _ _ _ _ E').
    cbn. rewrite !length_app. cbn. lia.
  - destruct Hr as (_ & E'). unfold all_devices. rewrite E'. reflexivity.
Qed.

Lemma path_input_enable_loop_accepting devs :
  (forall n, oom n = false) ->
  (forall n a b, exists own, probe n a b = PROBE_OK own) ->
  forall st,
    wf st ->
    fst (path_input_enable_loop probe oom devs st) = 0 /\
    length (all_devices (snd (path_input_enable_loop probe oom devs st))) =
      (length (all_devices st) + length devs)%nat.
Proof.
  intros Hoom Hprobe.
  induction devs as [|dev next IH]; intros st Hwf; cbn [path_input_enable_loop].
  - cbn. split; [reflexivity|lia].
  - pose proof (path_device_enable_some_iff st dev None) as Hiff.
    destruct (path_device_enable probe oom st dev None) as [[d|] st1] eqn:He.
    + destruct (IH st1 (path_device_enable_wf _ _ _ _ _ _ _ Hwf He)) as (H0 & Hlen).
      split; [exact H0|]. rewrite Hlen, (path_device_enable_count _ _ _ _ _ Hwf He).
      cbn. lia.
    + exfalso. cbn [fst] in Hiff. apply Hiff; [|reflexivity].
      split; [right; apply Hoom|apply Hprobe].
Qed.

(** X10. When no allocation fails and the adapter makes a device of every
    node, resume from a well-formed context returns 0 and enables one more
    device for each registered record, whether or not the record already
    had a device: resume does not look at the devices that are enabled. *)
Theorem path_input_enable_succeeds_when_adapter_accepts st :
  wf st ->
  (forall n, oom n = false) ->
  (forall n a b, exists own, probe n a b = PROBE_OK own) ->
  fst (path_input_enable probe oom st) = 0 /\
  length (all_devices (snd (path_input_enable probe oom st))) =
    (length (all_devices st) + length (path_list st))%nat.
Proof.
  intros Hwf Hoom Hprobe. unfold path_input_enable.
  now apply path_input_enable_loop_accepting.
Qed.

(** ** Suspend, then resume *)

Lemma same_names_at_most_one l n :
  NoDup (map seat_names l) -> Forall (fun s => seat_names s = n) l ->
  (length l <= 1)%nat.
Proof.
  intros Hnd Hall. destruct l as [|a [|b l]]; cbn; try lia.
  exfalso. inversion Hnd as [|? ? Hnotin _]; subst. apply Hnotin.
  pose proof (Forall_inv Hall) as Ha.
  pose proof (Forall_inv (Forall_inv_tail Hall)) as Hb.
  cbn. left. congruence.
Qed.

Lemma path_input_enable_loop_default_seat devs :
  forall st,
    wf st -> Forall on_default_seat (seat_list st) ->
    Forall on_default_seat (seat_list (snd (path_input_enable_loop probe oom devs st))).
Proof.
  induction devs as [|dev next IH]; intros st Hwf HJ; cbn [path_input_enable_loop];
    [exact HJ|].
  destruct (path_device_enable probe oom st dev None) as [r st1] eqn:He.
  pose proof (path_device_enable_wf _ _ _ _ _ _ _ Hwf He) as Hwf1.
  assert (HJ1 : Forall on_default_seat (seat_list st1)).
  { destruct (path_device_enable_spec _ _ _ _ _ _ _ Hwf He) as (_ & _ & Hr).
    destruct r as [d|]; [|now rewrite Hr].
    destruct Hr as (_ & _ & lname & Hov & Hr).
    assert (lname = default_seat_name) as ->
      by (destruct Hov as [Hov|[_ ->]]; [discriminate|reflexivity]).
    destruct (seat_get_named (seat_list st) default_seat default_seat_name) as [s|].
    - destruct Hr as (pre & post & E & _ & E' & _). rewrite E in HJ. rewrite E'.
      apply Forall_app in HJ as [H1 H2].
      pose proof (Forall_inv H2) as Hs. apply Forall_inv_tail in H2.
      apply Forall_app; split; [exact H1|]. constructor; [exact Hs|exact H2].
    - destruct Hr as (_ & E'). rewrite E'. constructor; [reflexivity|exact HJ]. }
  destruct r as [d|]; [now apply IH|].
  cbn [snd]. rewrite (path_input_disable_seat_list st1 Hwf1).
  eapply Forall_flat_map_intro; [|exact HJ1].
  intros s Hs. unfold on_default_seat in *.
  destruct (swept_names s) as [->|(s' & -> & En)];
    constructor; [now rewrite En|constructor].
Qed.

(** X11. Suspend followed by resume, in a reachable context and with an
    adapter that makes a device of every node: resume returns 0, the path
    registry is the same, and the enabled devices are one new device per
    record, in registry order, all on the seat (seat0, default), the only
    seat there can be.  A logical seat a device had been moved to is not
    restored. *)
Theorem suspend_then_resume_lands_on_default_seat P st :
  reachable probe oom P st ->
  (forall n, oom n = false) ->
  (forall n a b, exists own, probe n a b = PROBE_OK own) ->
  fst (path_input_enable probe oom (path_input_disable st)) = 0 /\
  path_list (snd (path_input_enable probe oom (path_input_disable st))) = path_list st /\
  Forall on_default_seat
         (seat_list (snd (path_input_enable probe oom (path_input_disable st)))) /\
  (length (seat_list (snd (path_input_enable probe oom (path_input_disable st)))) <= 1)%nat /\
  exists ds,
    Forall2 created_from (path_list st) ds /\
    named_devices (snd (path_input_enable probe oom (path_input_disable st)))
                  default_seat default_seat_name = ds /\
    forall x,
      In x (all_devices (snd (path_input_enable probe oom (path_input_disable st))))
      <-> In x ds.
Proof.
  intros Hreach Hoom Hprobe.
  pose proof (reachable_wf probe oom P st Hreach) as Hwf.
  pose proof (path_input_disable_wf st Hwf) as Hwf1.
  assert (E1 : seat_list (path_input_disable st) = []).
  { rewrite (path_input_disable_seat_list st Hwf).
    apply counted_swept, (reachable_counted P), Hreach. }
  assert (Ep1 : path_list (path_input_disable st) = path_list st)
    by apply (seats_only_fields _ _ (path_input_disable_seats_only st)).
  unfold path_input_enable. rewrite Ep1.
  destruct (path_input_enable_loop_accepting (path_list st) Hoom Hprobe _ Hwf1)
    as (H0 & _).
  pose proof (path_input_enable_loop_default_seat (path_list st) _ Hwf1) as Hdef.
  rewrite E1 in Hdef. specialize (Hdef (Forall_nil _)).
  destruct (reachable_inv probe oom P _ (reach_resume probe oom P _
              (reach_suspend probe oom P _ Hreach))) as (_ & Hn2 & _).
  unfold path_input_enable in Hn2. rewrite Ep1 in Hn2.
  destruct (path_input_enable_loop probe oom (path_list st) (path_input_disable st))
    as [rc st2] eqn:Hloop.
  cbn [fst snd] in *.
  destruct (path_input_enable_loop_spec _ _ _ _ _ _ Hwf1 Hloop) as (_ & Hp & Hcase).
  split; [exact H0|]. split; [congruence|]. split; [exact Hdef|].
  split; [exact (same_names_at_most_one (seat_list st2) (default_seat, default_seat_name) Hn2 Hdef)|].
  destruct Hcase as [(_ & ds & _ & Hds & Hnamed & Hall)|(Hrc & _)]; [|lia].
  exists ds. split; [exact Hds|]. split.
  - rewrite Hnamed. unfold named_devices, path_seat_get_named. now rewrite E1.
  - intros x. rewrite Hall. unfold all_devices. rewrite E1. cbn. tauto.
Qed.

(** ** The seat a device is moved away from *)

Lemma path_device_enable_other_names st dev ov r st' n :
  wf st ->
  path_device_enable probe oom st dev ov = (r, st') ->
  n <> (default_seat, resolved_name ov) ->
  (In n (map seat_names (seat_list st')) <-> In n (map seat_names (seat_list st))).
Proof.
  intros Hwf He Hne.
  destruct (path_device_enable_spec _ _ _ _ _ _ _ Hwf He) as (_ & _ & Hr).
  destruct r as [d|]; [|now rewrite Hr].
  destruct Hr as (_ & _ & lname & Hov & Hr).
  assert (lname = resolved_name ov) as ->
    by (destruct Hov as [->|[-> ->]]; reflexivity).
  destruct (seat_get_named (seat_list st) default_seat (resolved_name ov)) as [s|].
  - destruct Hr as (pre & post & E & _ & E' & _).
    rewrite E, E', !map_app. reflexivity.
  - destruct Hr as (_ & E'). rewrite E'. cbn [map]. split.
    + intros [Hx|Hx]; [exfalso; apply Hne; symmetry; exact Hx|exact Hx].
    + intros Hx; right; exact Hx.
Qed.

(** X14. Moving the only device of a seat to another logical seat, in a
    reachable context: once the devnode string is duplicated, the seat the
    device was on is unlinked, whether or not the device could be made
    again, so its names find nothing afterwards. *)
Theorem change_seat_unlinks_the_seat_left_empty P st s d name :
  reachable probe oom P st ->
  In s (seat_list st) -> devices_list s = [d] ->
  logical_name s <> name ->
  oom (alloc_clock st) = false ->
  path_seat_get_named (snd (path_device_change_seat probe oom st d name))
                      (physical_name s) (logical_name s) = None.
Proof.
  intros Hreach Hs Hone Hname Hoom.
  pose proof (reachable_inv probe oom P st Hreach) as (Hwf & Hn & _).
  pose proof (reachable_counted P st Hreach) as Hcount.
  pose proof (wf_tick_alloc _ Hwf) as Hwf0.
  apply in_split in Hs as (pre & post & E).
  assert (Hd : In d (devices_list s)) by (rewrite Hone; now left).
  destruct (libinput_path_remove_device_path_list (tick_alloc st) d) as (st1 & H & _).
  assert (E0 : seat_list (tick_alloc st) = pre ++ s :: post) by exact E.
  pose proof (libinput_path_remove_device_seats _ _ _ _ _ _ Hwf0 E0 Hd H) as E1.
  assert (Hin : In d (all_devices (tick_alloc st))).
  { apply in_flat_map. exists s. split; [rewrite E0; apply in_elt|exact Hd]. }
  pose proof (libinput_path_remove_device_wf _ _ _ Hwf0 Hin H) as Hwf1.
  rewrite E in Hcount, Hn. apply Forall_elt in Hcount. unfold counted in Hcount.
  unfold seat_without in E1. rewrite Hcount, Hone in E1. cbn in E1.
  assert (Hgone : ~ In (seat_names s) (map seat_names (seat_list st1))).
  { rewrite E1, map_app, in_app_iff. rewrite map_app in Hn. cbn in Hn.
    apply NoDup_remove_2 in Hn. rewrite in_app_iff in Hn. exact Hn. }
  rewrite (path_device_change_seat_unfold _ _ _ _ _ _ Hoom H). cbn [snd].
  destruct (path_create_device probe oom st1 _ _) as [r st'] eqn:Hc. cbn [snd].
  destruct (path_create_device_spec _ _ _ _ _ _ _ Hwf1 Hc) as (_ & _ & st2 & He & Es & _).
  assert (Hwf1' : wf (with_new_record (c_str (ev_devnode d)) st1))
    by (apply (wf_same_seats st1); [exact Hwf1|reflexivity|simpl; lia]).
  unfold path_seat_get_named. apply seat_get_named_None. rewrite Es.
  rewrite (path_device_enable_other_names _ _ _ _ _ (seat_names s) Hwf1' He).
  - exact Hgone.
  - unfold seat_names. cbn. intros [= _ Hl]. now apply Hname.
Qed.

(** ** Disabling a device that is not on its seat *)

Lemma path_disable_scan_absent devs d st :
  ~ In (ev_ptr d) (map ev_ptr devs) -> path_disable_scan devs d st = st.
Proof.
  induction devs as [|dev next IH]; cbn; intros H; [reflexivity|].
  destruct (Nat.eqb_spec (ev_ptr dev) (ev_ptr d)) as [E|E].
  - exfalso; apply H; now left.
  - apply IH; intro; apply H; now right.
Qed.

(** X15. [path_disable_device] only acts on a device it finds in the list
    of the device's seat: when no device of that seat lives at the
    device's address (or the seat is not registered), the context is left
    exactly as it was; when one does, that device is taken off the seat
    and no other device of the context is. *)
Theorem path_disable_device_only_if_listed st d :
  (~ In (ev_ptr d) (map ev_ptr (seat_devices (ev_seat d) st)) ->
   path_disable_device st d = st) /\
  (wf st -> In d (all_devices st) ->
   forall x, In x (all_devices (path_disable_device st d)) <->
             In x (all_devices st) /\ x <> d).
Proof.
  split.
  - apply path_disable_scan_absent.
  - intros Hwf Hin.
    destruct (live_device_focus _ _ Hwf Hin) as (pre & s & post & E & Hd & Hds & Hpre).
    apply (all_devices_without st _ pre s post d Hwf E Hd).
    apply path_disable_device_focus; auto. now apply in_map.
Qed.

End MoreProperties.

(** ** These properties at concrete contexts *)

Lemma probe_always_ok_accepts :
  forall n a b, exists own, probe_always_ok n a b = PROBE_OK own.
Proof. intros; exists false; reflexivity. Qed.

Lemma seat_refcount_counts_devices_witness :
  reachable probe_always_ok never_oom (fun _ => True) event3_enabled /\
  Forall (fun s => refcount s = Z.of_nat (length (devices_list s)) /\
                   devices_list s <> [])
         (seat_list event3_enabled).
Proof.
  split; [now apply event3_enabled_reachable|].
  apply (seat_refcount_counts_devices probe_always_ok never_oom (fun _ => True)
           event3_enabled).
  now apply event3_enabled_reachable.
Defined.

Lemma path_input_disable_empties_seat_registry_witness :
  reachable probe_always_ok never_oom (fun _ => True) event3_enabled /\
  seat_list (path_input_disable event3_enabled) = [].
Proof.
  split; [now apply event3_enabled_reachable|].
  apply (path_input_disable_empties_seat_registry probe_always_ok never_oom
           (fun _ => True) event3_enabled).
  now apply event3_enabled_reachable.
Defined.

Lemma every_seat_is_on_seat0_witness :
  reachable probe_always_ok never_oom (fun _ => True) event3_enabled /\
  Forall (fun s => physical_name s = default_seat) (seat_list event3_enabled).
Proof.
  split; [now apply event3_enabled_reachable|].
  apply (every_seat_is_on_seat0 probe_always_ok never_oom (fun _ => True)
           event3_enabled).
  now apply event3_enabled_reachable.
Defined.

Lemma removing_the_last_device_unlinks_the_seat_witness :
  reachable probe_always_ok never_oom (fun _ => True) event3_enabled /\
  In event3_seat (seat_list event3_enabled) /\
  In event3_device (devices_list event3_seat) /\
  libinput_path_remove_device (PathInput event3_enabled) event3_device
    = PathInput event3_removed /\
  path_seat_get_named event3_removed default_seat default_seat_name = None.
Proof.
  split; [now apply event3_enabled_reachable|].
  split; [left; reflexivity|]. split; [left; reflexivity|]. split; [reflexivity|].
  apply (removing_the_last_device_unlinks_the_seat probe_always_ok never_oom
           (fun _ => True) event3_enabled event3_seat event3_device event3_removed).
  - now apply event3_enabled_reachable.
  - left; reflexivity.
  - left; reflexivity.
  - reflexivity.
  - reflexivity.
Defined.

Lemma failed_add_device_changes_no_registry_witness :
  wf initial_context /\
  libinput_path_add_device probe_unhandled never_oom (PathInput initial_context)
                           "/dev/null" = (None, PathInput null_rejected) /\
  seat_list null_rejected = seat_list initial_context.
Proof.
  split; [concrete_wf initial_context|]. split; [reflexivity|].
  apply (failed_add_device_changes_no_registry probe_unhandled never_oom
           initial_context "/dev/null" null_rejected).
  - concrete_wf initial_context.
  - reflexivity.
Defined.

Lemma path_input_enable_succeeds_when_adapter_accepts_witness :
  wf two_suspended /\
  fst (path_input_enable probe_always_ok never_oom two_suspended) = 0.
Proof.
  split; [concrete_wf two_suspended|].
  apply (path_input_enable_succeeds_when_adapter_accepts probe_always_ok never_oom
           two_suspended).
  - concrete_wf two_suspended.
  - reflexivity.
  - apply probe_always_ok_accepts.
Defined.

Lemma suspend_then_resume_lands_on_default_seat_witness :
  reachable probe_always_ok never_oom (fun _ => True) event3_enabled /\
  fst (path_input_enable probe_always_ok never_oom
         (path_input_disable event3_enabled)) = 0.
Proof.
  split; [now apply event3_enabled_reachable|].
  apply (suspend_then_resume_lands_on_default_seat probe_always_ok never_oom
           (fun _ => True) event3_enabled).
  - now apply event3_enabled_reachable.
  - reflexivity.
  - apply probe_always_ok_accepts.
Defined.

Lemma change_seat_unlinks_the_seat_left_empty_witness :
  reachable probe_always_ok never_oom (fun _ => True) event3_enabled /\
  In event3_seat (seat_list event3_enabled) /\
  devices_list event3_seat = [event3_device] /\
  logical_name event3_seat <> "alt" /\
  never_oom (alloc_clock event3_enabled) = false /\
  path_seat_get_named
    (snd (path_device_change_seat probe_always_ok never_oom
            event3_enabled event3_device "alt"))
    (physical_name event3_seat) (logical_name event3_seat) = None.
Proof.
  split; [now apply event3_enabled_reachable|].
  split; [left; reflexivity|]. split; [reflexivity|]. split; [discriminate|].
  split; [reflexivity|].
  apply (change_seat_unlinks_the_seat_left_empty probe_always_ok never_oom
           (fun _ => True) event3_enabled event3_seat event3_device "alt").
  - now apply event3_enabled_reachable.
  - left; reflexivity.
  - reflexivity.
  - discriminate.
  - reflexivity.
Defined.

(** The device of /dev/input/event4 after it was removed: its seat is
    still registered but no longer lists it, and disabling it changes
    nothing.  The device of /dev/input/event3, alone on its seat, is
    taken off and no device is left. *)
Lemma path_disable_device_only_if_listed_witness :
  ~ In (ev_ptr event4_device)
       (map ev_ptr (seat_devices (ev_seat event4_device) event4_removed)) /\
  seat_devices (ev_seat event4_device) event4_removed = [event3_device] /\
  path_disable_device event4_removed event4_device = event4_removed /\
  wf event3_enabled /\ In event3_device (all_devices event3_enabled) /\
  forall x, In x (all_devices (path_disable_device event3_enabled event3_device)) <->
            In x (all_devices event3_enabled) /\ x <> event3_device.
Proof.
  assert (Hnot : ~ In (ev_ptr event4_device)
                      (map ev_ptr (seat_devices (ev_seat event4_device) event4_removed))).
  { vm_compute. intros [H|[]]. discriminate. }
  assert (Hwf : wf event3_enabled) by concrete_wf event3_enabled.
  assert (Hin : In event3_device (all_devices event3_enabled)) by (left; reflexivity).
  split; [exact Hnot|]. split; [vm_compute; reflexivity|]. split.
  - exact (proj1 (path_disable_device_only_if_listed event4_removed event4_device) Hnot).
  - split; [exact Hwf|]. split; [exact Hin|].
    exact (proj2 (path_disable_device_only_if_listed event3_enabled event3_device)
                 Hwf Hin).
Defined.

(** Enabling the record of /dev/input/event3 once more in the context
    that has its device on (seat0, default): with no override the new
    device joins that seat and no seat is added; with the override alt a
    second seat, (seat0, alt), is linked at the head. *)
Lemma seat_identity_is_unique_witness :
  reachable probe_always_ok never_oom (fun _ => True) event3_enabled /\
  NoDup (map seat_names (seat_list event3_enabled)) /\
  (exists d st',
      path_device_enable probe_always_ok never_oom event3_enabled event3_record None
        = (Some d, st') /\
      In d (all_devices st') /\
      map seat_names (seat_list st') = map seat_names (seat_list event3_enabled) /\
      seat_list st' =
        [mk_seat 2%nat default_seat default_seat_name 2 [event3_device; d]]) /\
  (exists d st',
      path_device_enable probe_always_ok never_oom event3_enabled event3_record
                         (Some "alt") = (Some d, st') /\
      In d (all_devices st') /\
      seat_list st' =
        mk_seat (ev_seat d) default_seat "alt" 1 [d] :: seat_list event3_enabled).
Proof.
  pose proof (event3_enabled_reachable (fun _ => True) I) as Hreach.
  destruct (seat_identity_is_unique probe_always_ok never_oom (fun _ => True)
              event3_enabled Hreach) as (Hn & Henable & _).
  split; [exact Hreach|]. split; [exact Hn|]. split.
  - destruct (Henable event3_record None false) as (d & st' & He & _ & Hin & _ & Hm);
      [right; reflexivity|reflexivity|].
    exists d, st'. split; [exact He|]. split; [exact Hin|].
    change (ev_seat d = 2%nat /\
            map seat_names (seat_list st') = map seat_names (seat_list event3_enabled) /\
            exists pre post,
              seat_list event3_enabled = pre ++ event3_seat :: post /\
              seat_list st' =
                pre ++ mk_seat 2%nat default_seat default_seat_name 2
                               [event3_device; d] :: post) in Hm.
    destruct Hm as (_ & En & pre & post & E & E'). split; [exact En|].
    destruct pre as [|x pre]; [|destruct pre; discriminate E].
    injection E as <-. exact E'.
  - destruct (Henable event3_record (Some "alt") false)
      as (d & st' & He & _ & Hin & _ & Hm); [left; discriminate|reflexivity|].
    exists d, st'. split; [exact He|]. split; [exact Hin|].
    change (~ In (default_seat, "alt") (map seat_names (seat_list event3_enabled)) /\
            seat_list st' =
              mk_seat (ev_seat d) default_seat "alt" 1 [d] :: seat_list event3_enabled)
      in Hm.
    apply Hm.
Defined.
